(** * A retrieval-augmented question-answering pipeline over a vector index

    Shallow embedding of the TypeScript sources

    - section [utils]          : createPineconeIndex, updatePinecone,
                                 queryPineconeVectorStoreAndQueryLLM
    - module [LlamaBatched]    : the LlamaEmbeddings client that batches its
                                 requests
    - module [LlamaSequential] : the LlamaEmbeddings client that sends one
                                 request per document
    - section [route]          : the POST handler of app/api/read/route.ts

    Every remote collaborator (vector index, embedding endpoint, language
    model) is an oracle acting on an abstract world [W]; the functions of the
    program run in a small monad that threads the world, stops at the first
    rejected promise or TypeError, and records every outbound call in a
    chronological trace. *)

From Equations Require Import Equations.
From Stdlib Require Import Ascii.
From stdpp Require Import gmap strings list pretty.

Set Default Proof Using "Type".

(** ** Values of the JavaScript runtime *)

(** A promise that rejects or an exception that is thrown. *)
Inductive Error : Type :=
| TypeError (msg : string)
| Rejected (msg : string).

Inductive Result (A : Type) : Type :=
| Ok (a : A)
| Err (e : Error).
Arguments Ok {A} a.
Arguments Err {A} e.

(** JavaScript values as far as the program handles them.  [number] is the
    type of IEEE doubles: the program only moves numbers around (embedding
    components, scores), so the type is left abstract. *)
#[warnings="-register-all"]
Inductive JSValue (number : Type) : Type :=
| JUndefined
| JNull
| JBool (b : bool)
| JNumber (n : number)
| JString (s : string)
| JArray (items : list (JSValue number))
| JObject (fields : list (string * JSValue number)).
Arguments JUndefined {number}.
Arguments JNull {number}.
Arguments JBool {number} b.
Arguments JNumber {number} n.
Arguments JString {number} s.
Arguments JArray {number} items.
Arguments JObject {number} fields.

(** The tree that JSON serialisation writes out: no [undefined] in it. *)
#[warnings="-register-all"]
Inductive Json (number : Type) : Type :=
| JsNull
| JsBool (b : bool)
| JsNumber (n : number)
| JsString (s : string)
| JsArray (items : list (Json number))
| JsObject (fields : list (string * Json number)).
Arguments JsNull {number}.
Arguments JsBool {number} b.
Arguments JsNumber {number} n.
Arguments JsString {number} s.
Arguments JsArray {number} items.
Arguments JsObject {number} fields.

Section js_runtime.
Context {number : Type}.

(** SerializeJSONProperty of ECMA-262, structure only: [undefined] has no
    serialisation, an object property holding it is left out, an array slot
    holding it is written as null. *)
Fixpoint toJSON (v : JSValue number) : option (Json number) :=
  match v with
  | JUndefined => None
  | JNull => Some JsNull
  | JBool b => Some (JsBool b)
  | JNumber n => Some (JsNumber n)
  | JString s => Some (JsString s)
  | JArray items =>
      Some (JsArray
        ((fix slots (l : list (JSValue number)) : list (Json number) :=
            match l with
            | [] => []
            | x :: l' =>
                match toJSON x with
                | Some j => j :: slots l'
                | None => JsNull :: slots l'
                end
            end) items))
  | JObject fields =>
      Some (JsObject
        ((fix props (l : list (string * JSValue number))
            : list (string * Json number) :=
            match l with
            | [] => []
            | (k, x) :: l' =>
                match toJSON x with
                | Some j => (k, j) :: props l'
                | None => props l'
                end
            end) fields))
  end.

(** [obj.key] on a JSON tree that was parsed back: a missing property reads
    as [None] (undefined). *)
Definition json_get (key : string) (j : Json number) : option (Json number) :=
  match j with
  | JsObject fields => snd <$> List.find (fun kv => String.eqb kv.1 key) fields
  | _ => None
  end.

End js_runtime.

(** ** Strings *)

(** [s.replace(/\n/g, ' ')]: every line feed becomes a space.  Strings are
    byte strings in UTF-8, where the byte 10 occurs only as a line feed. *)
Definition newline : ascii := "010"%char.
Definition space : ascii := " "%char.

Fixpoint replace_newlines (s : string) : string :=
  match s with
  | EmptyString => EmptyString
  | String c s' =>
      String (if Ascii.eqb c newline then space else c) (replace_newlines s')
  end.

Fixpoint has_newline (s : string) : bool :=
  match s with
  | EmptyString => false
  | String c s' => Ascii.eqb c newline || has_newline s'
  end.

(** ** Consecutive slices of a list *)

Section slices.
Context {A : Type}.

(** [slices n l] cuts [l] from the left into runs of [n] elements, the last
    run holding what remains.  With [n = 0] no run can hold an element and
    there is none. *)
Equations? slices (n : nat) (l : list A) : list (list A) by wf (length l) lt :=
  slices _ [] := [];
  slices 0 (x :: xs) := [];
  slices (S n) (x :: xs) := (x :: take n xs) :: slices (S n) (drop n xs).
Proof. rewrite length_drop. simpl. lia. Qed.

End slices.

(** ** Data model *)

(** A langchain [Document]: the loaded documents, the chunks the splitter
    returns and the context handed to the chain are all of this class.
    [metadata] is an open object; the order of its keys plays no role here. *)
Record Document (number : Type) : Type := mkDocument {
  pageContent : string;
  metadata : gmap string (JSValue number)
}.
Arguments mkDocument {number} pageContent metadata.
Arguments pageContent {number} d.
Arguments metadata {number} d.

(** A record of the vector index, as written by an upsert: [id], [values]
    (undefined when the embedding is missing) and [metadata]. *)
Record Vector (number : Type) : Type := mkVector {
  vector_id : string;
  vector_values : option (list number);
  vector_metadata : gmap string (JSValue number)
}.
Arguments mkVector {number} vector_id vector_values vector_metadata.
Arguments vector_id {number} v.
Arguments vector_values {number} v.
Arguments vector_metadata {number} v.

(** A match of a query ([ScoredVector]). *)
Record Match (number : Type) : Type := mkMatch {
  match_id : string;
  score : option number;
  match_values : option (list number);
  match_metadata : option (gmap string (JSValue number))
}.
Arguments mkMatch {number} match_id score match_values match_metadata.
Arguments match_id {number} m.
Arguments score {number} m.
Arguments match_values {number} m.
Arguments match_metadata {number} m.

Record QueryResponse (number : Type) : Type := mkQueryResponse {
  matches : option (list (Match number))
}.
Arguments mkQueryResponse {number} matches.
Arguments matches {number} q.

Record CreateRequest (number : Type) : Type := mkCreateRequest {
  name : string;
  dimension : number;
  metric : string
}.
Arguments mkCreateRequest {number} name dimension metric.
Arguments name {number} c.
Arguments dimension {number} c.
Arguments metric {number} c.

Record QueryRequest (number : Type) : Type := mkQueryRequest {
  topK : nat;
  vector : list number;
  includeMetadata : bool;
  includeValues : bool
}.
Arguments mkQueryRequest {number} topK vector includeMetadata includeValues.
Arguments topK {number} q.
Arguments vector {number} q.
Arguments includeMetadata {number} q.
Arguments includeValues {number} q.

(** The [input] of an embedding request ([CreateEmbeddingRequestInput]): one
    string or an array of strings. *)
Inductive EmbeddingInput : Type :=
| InputString (s : string)
| InputArray (l : list string).

(** The body of the embedding endpoint's answer, [{data: [{embedding}]}];
    the fields [object], [model] and [usage] are never read. *)
Record EmbeddingData (number : Type) : Type := mkEmbeddingData {
  embedding : list number
}.
Arguments mkEmbeddingData {number} embedding.
Arguments embedding {number} e.

Record EmbeddingResponse (number : Type) : Type := mkEmbeddingResponse {
  data : list (EmbeddingData number)
}.
Arguments mkEmbeddingResponse {number} data.
Arguments data {number} e.

(** What [chain.call] resolves to, as far as it is read: [result.text]. *)
Record ChainValues : Type := mkChainValues {
  text : string
}.

(** ** Outbound calls *)

(** Everything the program does to the outside, in the order it does it. *)
Inductive Event (number : Type) : Type :=
| ConsoleLog (msg : string)
| ConsoleLogMatches (ms : option (list (Match number)))
| PineconeInit (apiKey environment : option string)
| ListIndexes
| CreateIndex (createRequest : CreateRequest number)
| SetTimeout (ms : number)
| OpenAIEmbedDocuments (texts : list string)
| OpenAIEmbedQuery (q : string)
| Upsert (indexName : string) (vectors : list (Vector number))
| Query (indexName : string) (queryRequest : QueryRequest number)
| ChainCall (input_documents : list (Document number)) (question : string)
| AxiosPost (url : string) (input : EmbeddingInput).
Arguments ConsoleLog {number} msg.
Arguments ConsoleLogMatches {number} ms.
Arguments PineconeInit {number} apiKey environment.
Arguments ListIndexes {number}.
Arguments CreateIndex {number} createRequest.
Arguments SetTimeout {number} ms.
Arguments OpenAIEmbedDocuments {number} texts.
Arguments OpenAIEmbedQuery {number} q.
Arguments Upsert {number} indexName vectors.
Arguments Query {number} indexName queryRequest.
Arguments ChainCall {number} input_documents question.
Arguments AxiosPost {number} url input.

(** ** The monad of the program *)

(** A computation takes the world, and gives its outcome, the world it
    leaves and the calls it made.  After an error nothing more is done. *)
Definition M (E W A : Type) : Type := W -> Result A * W * list E.

Definition outcome {E W A} (r : Result A * W * list E) : Result A := r.1.1.
Definition world {E W A} (r : Result A * W * list E) : W := r.1.2.
Definition trace {E W A} (r : Result A * W * list E) : list E := r.2.

#[global] Instance M_ret {E W} : MRet (M E W) :=
  fun A a w => (Ok a, w, []).

#[global] Instance M_bind {E W} : MBind (M E W) :=
  fun A B f m w =>
    match m w with
    | (Ok a, w1, t1) =>
        match f a w1 with
        | (r, w2, t2) => (r, w2, t1 ++ t2)
        end
    | (Err e, w1, t1) => (Err e, w1, t1)
    end.

Definition throw {E W A} (e : Error) : M E W A :=
  fun w => (Err e, w, []).

(** A call that cannot fail and leaves the world as it is ([console.log]). *)
Definition emit {E W} (ev : E) : M E W unit :=
  fun w => (Ok tt, w, [ev]).

(** An awaited call to a collaborator: the call is recorded, the oracle
    gives the settled promise and the world after it. *)
Definition call {E W A} (ev : E) (oracle : W -> Result A * W) : M E W A :=
  fun w => match oracle w with (r, w') => (r, w', [ev]) end.

(** ** The collaborators *)

(** The number formatting of template literals and the text that
    [JSON.stringify] writes for a tree are the runtime's. *)
Class JSRuntime (number : Type) : Type := {
  Number_toString : number -> string;
  JSON_text : Json number -> string
}.

(** [@pinecone-database/pinecone]. *)
Class PineconeClient (number W : Type) : Type := {
  pinecone_init : option string -> option string -> W -> Result unit * W;
  pinecone_listIndexes : W -> Result (list string) * W;
  pinecone_createIndex : CreateRequest number -> W -> Result unit * W;
  pinecone_upsert : string -> list (Vector number) -> W -> Result unit * W;
  pinecone_query :
    string -> QueryRequest number -> W -> Result (QueryResponse number) * W;
  (** the world after [ms] have passed *)
  elapse : number -> W -> W
}.

(** [langchain]: the text splitter (local and deterministic), the OpenAI
    embeddings and the question-answering chain over an OpenAI model. *)
Class LangChain (number W : Type) : Type := {
  RecursiveCharacterTextSplitter_createDocuments :
    nat -> list string -> list (Document number);
  OpenAIEmbeddings_embedDocuments :
    list string -> W -> Result (list (list number)) * W;
  OpenAIEmbeddings_embedQuery : string -> W -> Result (list number) * W;
  loadQAStuffChain_call :
    list (Document number) -> string -> W -> Result ChainValues * W
}.

(** [axios.post] to the embedding endpoint; [response.data] is the body. *)
Class Axios (number W : Type) : Type := {
  axios_post :
    string -> EmbeddingInput -> W -> Result (EmbeddingResponse number) * W
}.

(** ** Conversions of the runtime *)

Section conversions.
Context {number : Type} `{!JSRuntime number}.

(** What an array element contributes to [join]: nothing when it is
    undefined or null, its string otherwise. *)
Definition join_element (ToString : JSValue number -> string)
    (x : JSValue number) : string :=
  match x with
  | JUndefined | JNull => ""
  | _ => ToString x
  end.

(** ToString of ECMA-262, as used by template literals and by [join]. *)
Fixpoint ToString (v : JSValue number) : string :=
  match v with
  | JUndefined => "undefined"
  | JNull => "null"
  | JBool b => if b then "true" else "false"
  | JNumber n => Number_toString n
  | JString s => s
  | JArray items =>
      (fix elements (l : list (JSValue number)) : string :=
         match l with
         | [] => ""
         | x :: l' =>
             match l' with
             | [] => join_element ToString x
             | _ :: _ => join_element ToString x +:+ "," +:+ elements l'
             end
         end) items
  | JObject _ => "[object Object]"
  end.

(** [Array.prototype.join(sep)]. *)
Fixpoint join (sep : string) (l : list (JSValue number)) : string :=
  match l with
  | [] => ""
  | x :: l' =>
      match l' with
      | [] => join_element ToString x
      | _ :: _ => join_element ToString x +:+ sep +:+ join sep l'
      end
  end.

(** [JSON.stringify(v)]: a string, or undefined when [v] has no
    serialisation. *)
Definition JSON_stringify (v : JSValue number) : JSValue number :=
  match toJSON v with
  | Some j => JString (JSON_text j)
  | None => JUndefined
  end.

(** [obj.key] on an object held as a map: a missing key reads as
    undefined. *)
Definition get (obj : gmap string (JSValue number)) (key : string)
    : JSValue number :=
  default JUndefined (obj !! key).

End conversions.

(** [process.env.X] interpolated in a template literal. *)
Definition env_slot (v : option string) : string :=
  default "undefined" v.

(** [`${process.env.LLAMA_SERVICE_ORIGIN}/v1/embeddings`]. *)
Definition embeddings_url (LLAMA_SERVICE_ORIGIN : option string) : string :=
  env_slot LLAMA_SERVICE_ORIGIN +:+ "/v1/embeddings".

(** A string between double quotes, as the log lines print index names. *)
Definition quoted (s : string) : string :=
  String "034"%char (s +:+ String "034"%char EmptyString).

(** ** utils: index provisioning, ingestion and query *)

Section utils.
Context {number W : Type}.
Context `{!JSRuntime number, !PineconeClient number W, !LangChain number W}.

(** [timeout] of ./config, which is not part of the sources at hand. *)
Variable timeout : number.

Abbreviation Prog := (M (Event number) W).

(** [await new Promise((resolve) => setTimeout(resolve, ms))]. *)
Definition sleep (ms : number) : Prog unit :=
  fun w => (Ok tt, elapse ms w, [SetTimeout ms]).

Definition createPineconeIndex (indexName : string) (vectorDimension : number)
    : Prog unit :=
  emit (ConsoleLog ("Checking " +:+ quoted indexName +:+ "..."));;
  existingIndexes ← call ListIndexes pinecone_listIndexes;
  if negb (bool_decide (indexName ∈ existingIndexes)) then
    emit (ConsoleLog ("Creating " +:+ quoted indexName +:+ "..."));;
    let createRequest := mkCreateRequest indexName vectorDimension "cosine" in
    call (CreateIndex createRequest) (pinecone_createIndex createRequest);;
    emit (ConsoleLog
            "Creating index... please wait for it to finish initializing.");;
    sleep timeout
  else
    emit (ConsoleLog (quoted indexName +:+ " already exists.")).

Definition batchSize : nat := 100.

(** The record built for [chunks[idx]]. *)
Definition make_vector (txtPath : JSValue number)
    (embeddingsArrays : list (list number)) (idx : nat)
    (chunk : Document number) : Vector number :=
  {| vector_id := ToString txtPath +:+ "_" +:+ pretty idx;
     vector_values := embeddingsArrays !! idx;
     vector_metadata :=
       <["txtPath" := txtPath]>
         (<["pageContent" := JString (pageContent chunk)]>
            (<["loc" := JSON_stringify (get (metadata chunk) "loc")]>
               (metadata chunk))) |}.

(** The loop [for (let idx = 0; idx < chunks.length; idx++)], entered at
    [idx] with [rest] the chunks from [idx] on and [batch] the records
    gathered since the last upsert. *)
Fixpoint upsert_loop (indexName : string) (txtPath : JSValue number)
    (chunks_length : nat) (embeddingsArrays : list (list number))
    (idx : nat) (rest : list (Document number)) (batch : list (Vector number))
    : Prog unit :=
  match rest with
  | [] => mret tt
  | chunk :: rest' =>
      let vector := make_vector txtPath embeddingsArrays idx chunk in
      let batch := batch ++ [vector] in
      if bool_decide (length batch = batchSize)
         || bool_decide (Z.of_nat idx = (Z.of_nat chunks_length - 1)%Z)
      then
        call (Upsert indexName batch) (pinecone_upsert indexName batch);;
        upsert_loop indexName txtPath chunks_length embeddingsArrays
          (S idx) rest' []
      else
        upsert_loop indexName txtPath chunks_length embeddingsArrays
          (S idx) rest' batch
  end.

(** The body of [for (const doc of docs)]. *)
Definition updatePinecone_doc (indexName : string) (doc : Document number)
    : Prog unit :=
  let txtPath := get (metadata doc) "source" in
  emit (ConsoleLog ("Processing document: " +:+ ToString txtPath));;
  let text := pageContent doc in
  emit (ConsoleLog "Splitting text into chunks...");;
  let chunks := RecursiveCharacterTextSplitter_createDocuments 1000 [text] in
  emit (ConsoleLog
          ("Text split into " +:+ pretty (length chunks) +:+ " chunks"));;
  emit (ConsoleLog
          ("Calling OpenAI's Embedding endpoint documents with "
             +:+ pretty (length chunks) +:+ " text chunks ..."));;
  let texts := (fun chunk => replace_newlines (pageContent chunk)) <$> chunks in
  embeddingsArrays ←
    call (OpenAIEmbedDocuments texts) (OpenAIEmbeddings_embedDocuments texts);
  emit (ConsoleLog
          ("Creating " +:+ pretty (length chunks)
             +:+ " vectors array with id, values, and metadata..."));;
  upsert_loop indexName txtPath (length chunks) embeddingsArrays 0 chunks [].

Fixpoint for_of {A} (l : list A) (body : A -> Prog unit) : Prog unit :=
  match l with
  | [] => mret tt
  | x :: l' => body x;; for_of l' body
  end.

Definition updatePinecone (indexName : string) (docs : list (Document number))
    : Prog unit :=
  emit (ConsoleLog ("Pinecone index retrieved: " +:+ indexName));;
  for_of docs (updatePinecone_doc indexName).

(** [queryResponse.matches?.length] printed in a template literal. *)
Definition matches_length_slot (ms : option (list (Match number))) : string :=
  match ms with
  | Some l => pretty (length l)
  | None => "undefined"
  end.

(** [match?.metadata?.pageContent]. *)
Definition match_pageContent (m : Match number) : JSValue number :=
  match match_metadata m with
  | Some md => get md "pageContent"
  | None => JUndefined
  end.

Definition question_suffix : string := ", trả lời bằng thơ nhé".

Definition no_matches_message : string :=
  "There is no matches, so GPT-3 will not be queried.".

(** The function returns [result.text] on the one path and falls off its
    end on the other, which gives undefined. *)
Definition queryPineconeVectorStoreAndQueryLLM (indexName : string)
    (question : string) : Prog (JSValue number) :=
  emit (ConsoleLog "Querying Pinecone vector store...");;
  queryEmbedding ←
    call (OpenAIEmbedQuery question) (OpenAIEmbeddings_embedQuery question);
  let queryRequest := mkQueryRequest 10 queryEmbedding true true in
  queryResponse ←
    call (Query indexName queryRequest) (pinecone_query indexName queryRequest);
  emit (ConsoleLog
          ("Found " +:+ matches_length_slot (matches queryResponse)
             +:+ " matches..."));;
  emit (ConsoleLog "Got vectors:");;
  emit (ConsoleLogMatches (matches queryResponse));;
  emit (ConsoleLog ("Asking question: " +:+ question +:+ "..."));;
  match matches queryResponse with
  | Some (m :: ms) =>
      let concatenatedPageContent :=
        join " " (match_pageContent <$> (m :: ms)) in
      let input_documents := [mkDocument concatenatedPageContent ∅] in
      result ←
        call (ChainCall input_documents (question +:+ question_suffix))
          (loadQAStuffChain_call input_documents
             (question +:+ question_suffix));
      emit (ConsoleLog ("Answer: " +:+ text result));;
      mret (JString (text result))
  | _ =>
      emit (ConsoleLog no_matches_message);;
      mret JUndefined
  end.

End utils.

(** ** util/chunk *)

(** Modelled from the spec: [chunkArray] of ../util/chunk, which the batching
    client imports and which is not among the sources at hand.  The spec has
    the client batch its documents "into groups no larger than a configured
    batch size" and reassemble the results "in original order": the groups
    are the consecutive slices of the array, each full but the last. *)
Definition chunkArray {A : Type} (arr : list A) (chunkSize : nat)
    : list (list A) :=
  slices chunkSize arr.

(** ** Promise.all *)

Section promise_all.
Context {E W : Type}.

(** [Promise.all] over calls that were all started, in array order, before
    any is awaited: every call is made whatever the others do, the result
    is the array of their values, or the rejection of the first (in array
    order) that rejects.  The interleaving of the calls in flight, the
    caller's concurrency cap and its retries are not modelled. *)
Fixpoint Promise_all {A} (started : list (M E W A)) : M E W (list A) :=
  match started with
  | [] => mret []
  | p :: rest =>
      fun w =>
        match p w with
        | (r, w1, t1) =>
            match Promise_all rest w1 with
            | (rs, w2, t2) =>
                (match r, rs with
                 | Ok a, Ok l => Ok (a :: l)
                 | Err e, _ => Err e
                 | Ok _, Err e => Err e
                 end, w2, t1 ++ t2)
            end
        end
  end.

End promise_all.

(** ** LlamaEmbeddings, batching its requests *)

Module LlamaBatched.

(** The optional fields of the constructor's argument. *)
Record LlamaEmbeddingsParams : Type := mkParams {
  params_batchSize : option nat;
  params_stripNewLines : option bool
}.

(** The instance.  [maxConcurrency] goes to the caller of the base class,
    whose scheduling is not modelled. *)
Record LlamaEmbeddings : Type := mkLlamaEmbeddings {
  batchSize : nat;
  stripNewLines : bool
}.

(** [fields?.x ?? this.x], the initial [this.x] being the class default. *)
Definition constructor (fields : option LlamaEmbeddingsParams)
    : LlamaEmbeddings :=
  {| stripNewLines := default true (fields ≫= params_stripNewLines);
     batchSize := default 512 (fields ≫= params_batchSize) |}.

Section methods.
Context {number W : Type} `{!Axios number W}.

(** [process.env.LLAMA_SERVICE_ORIGIN]. *)
Variable LLAMA_SERVICE_ORIGIN : option string.

Abbreviation Prog := (M (Event number) W).

(** [this.caller.call(axios.post, url, request)]: the retrying caller is
    taken by its settled outcome. *)
Definition embeddingWithRetry (input : EmbeddingInput)
    : Prog (EmbeddingResponse number) :=
  let url := embeddings_url LLAMA_SERVICE_ORIGIN in
  call (AxiosPost url input) (axios_post url input).

Definition embedQuery (this : LlamaEmbeddings) (text : string)
    : Prog (list number) :=
  response ←
    embeddingWithRetry
      (InputString
         (if stripNewLines this then replace_newlines text else text));
  match data response !! 0 with
  | Some d => mret (embedding d)
  | None =>
      throw (TypeError "Cannot read properties of undefined (reading 'embedding')")
  end.

(** [for (let j = 0; j < batch.length; j += 1)], entered at [j] with
    [rest] the texts of the batch from [j] on. *)
Fixpoint push_batch (batchResponse : EmbeddingResponse number) (j : nat)
    (rest : list string) (embeddings : list (list number))
    : Prog (list (list number)) :=
  match rest with
  | [] => mret embeddings
  | _ :: rest' =>
      match data batchResponse !! j with
      | Some d =>
          push_batch batchResponse (S j) rest' (embeddings ++ [embedding d])
      | None =>
          throw (TypeError "Cannot read properties of undefined (reading 'embedding')")
      end
  end.

(** [for (let i = 0; i < batchResponses.length; i += 1)], entered with the
    batches and the responses from [i] on. *)
Fixpoint push_batches (batches : list (list string))
    (batchResponses : list (EmbeddingResponse number))
    (embeddings : list (list number)) {struct batchResponses}
    : Prog (list (list number)) :=
  match batchResponses with
  | [] => mret embeddings
  | batchResponse :: batchResponses' =>
      match batches with
      | batch :: batches' =>
          embeddings' ← push_batch batchResponse 0 batch embeddings;
          push_batches batches' batchResponses' embeddings'
      | [] =>
          throw (TypeError "Cannot read properties of undefined (reading 'length')")
      end
  end.

Definition embedDocuments (this : LlamaEmbeddings) (texts : list string)
    : Prog (list (list number)) :=
  let batches :=
    chunkArray
      (if stripNewLines this then replace_newlines <$> texts else texts)
      (batchSize this) in
  let batchRequests :=
    (fun batch => embeddingWithRetry (InputArray batch)) <$> batches in
  batchResponses ← Promise_all batchRequests;
  push_batches batches batchResponses [].

End methods.
End LlamaBatched.

(** ** LlamaEmbeddings, one request per document *)

Module LlamaSequential.
Section methods.
Context {number W : Type} `{!Axios number W}.

(** [process.env.LLAMA_SERVICE_ORIGIN]. *)
Variable LLAMA_SERVICE_ORIGIN : option string.

Abbreviation Prog := (M (Event number) W).

(** The [try] rethrows what it catches; [result.data] is the body. *)
Definition embedWithRetry (input : string) : Prog (EmbeddingResponse number) :=
  let url := embeddings_url LLAMA_SERVICE_ORIGIN in
  call (AxiosPost url (InputString input)) (axios_post url (InputString input)).

Definition embedQuery (text : string) : Prog (list number) :=
  result ← embedWithRetry text;
  match data result !! 0 with
  | Some d => mret (embedding d)
  | None =>
      throw (TypeError "Cannot read properties of undefined (reading 'embedding')")
  end.

(** [for (const document of documents)] with the array being filled. *)
Fixpoint embedDocuments_loop (documents : list string)
    (embeddings : list (list number)) : Prog (list (list number)) :=
  match documents with
  | [] => mret embeddings
  | document :: documents' =>
      result ← embedWithRetry document;
      match data result !! 0 with
      | Some d => embedDocuments_loop documents' (embeddings ++ [embedding d])
      | None =>
          throw (TypeError "Cannot read properties of undefined (reading 'embedding')")
      end
  end.

Definition embedDocuments (documents : list string)
    : Prog (list (list number)) :=
  embedDocuments_loop documents [].

End methods.
End LlamaSequential.

(** ** app/api/read/route.ts *)

(** A response made by [NextResponse.json(value)]: status 200 and the JSON
    serialisation of the value as its body. *)
Record NextResponse (number : Type) : Type := mkNextResponse {
  status : nat;
  body : option (Json number)
}.
Arguments mkNextResponse {number} status body.
Arguments status {number} _.
Arguments body {number} _.

Definition NextResponse_json {number} (value : JSValue number)
    : NextResponse number :=
  {| status := 200; body := toJSON value |}.

Section route.
Context {number W : Type}.
Context `{!JSRuntime number, !PineconeClient number W, !LangChain number W}.

(** [indexName] of @/config and the two environment variables. *)
Variable indexName : string.
Variable PINECONE_API_KEY : option string.
Variable PINECONE_ENVIRONMENT : option string.

(** The handler hands the parsed body itself to the pipeline as the
    question: [body] is the JSON string that the request carries. *)
Definition POST (body : string) : M (Event number) W (NextResponse number) :=
  call (PineconeInit PINECONE_API_KEY PINECONE_ENVIRONMENT)
    (pinecone_init PINECONE_API_KEY PINECONE_ENVIRONMENT);;
  text ← queryPineconeVectorStoreAndQueryLLM indexName body;
  mret (NextResponse_json (JObject [("data", text)])).

End route.

(** ** Observations on traces *)

Section observations.
Context {number : Type}.

(** The batches of the upsert requests, in the order they were sent. *)
Definition upserts (t : list (Event number)) : list (list (Vector number)) :=
  omap (fun ev => match ev with Upsert _ vs => Some vs | _ => None end) t.

(** The creation requests. *)
Definition creation_requests (t : list (Event number))
    : list (CreateRequest number) :=
  omap (fun ev => match ev with CreateIndex r => Some r | _ => None end) t.

(** The completion calls: context documents and question. *)
Definition chain_calls (t : list (Event number))
    : list (list (Document number) * string) :=
  omap (fun ev =>
          match ev with ChainCall docs q => Some (docs, q) | _ => None end) t.

(** The inputs of the requests to the embedding endpoint. *)
Definition posted_inputs (t : list (Event number)) : list EmbeddingInput :=
  omap (fun ev => match ev with AxiosPost _ i => Some i | _ => None end) t.

(** The texts handed to the OpenAI embeddings, one list per call. *)
Definition embedded_documents (t : list (Event number)) : list (list string) :=
  omap (fun ev =>
          match ev with OpenAIEmbedDocuments l => Some l | _ => None end) t.

End observations.

(** ** Terms of the properties *)

Section ingestion_terms.
Context {number W : Type}.
Context `{!JSRuntime number, !PineconeClient number W, !LangChain number W}.

(** The chunks of a document and the records built from them. *)
Definition doc_chunks (doc : Document number) : list (Document number) :=
  RecursiveCharacterTextSplitter_createDocuments 1000 [pageContent doc].

Definition doc_texts (doc : Document number) : list string :=
  (fun chunk => replace_newlines (pageContent chunk)) <$> doc_chunks doc.

Definition doc_records (doc : Document number) (es : list (list number))
    : list (Vector number) :=
  imap (make_vector (get (metadata doc) "source") es) (doc_chunks doc).

(** The batches of a document of [M] chunks: none empty, none above a
    hundred, all full but the last, which holds the remainder. *)
Definition batched_by_hundred (M : nat) (bs : list (list (Vector number)))
    : Prop :=
  Forall (fun b => 0 < length b ≤ 100) bs
  /\ (forall k b, bs !! k = Some b -> S k < length bs -> length b = 100)
  /\ (forall b, last bs = Some b ->
        length b = if decide (M mod 100 = 0) then 100 else M mod 100)
  /\ length bs = (M + 99) / 100.

(** What the upserts [bs] of one document have to be: for some answer [es]
    of the embedding service to the document's texts, the records of the
    batches taken together are one per chunk, in the order of the chunks,
    the [i]-th with the id [`${txtPath}_${i}`] and the [i]-th embedding. *)
Definition doc_ingested (doc : Document number)
    (bs : list (list (Vector number))) : Prop :=
  exists es w',
    (OpenAIEmbeddings_embedDocuments (doc_texts doc) w').1 = Ok es
    /\ concat bs = doc_records doc es
    /\ length (concat bs) = length (doc_chunks doc)
    /\ (forall i v, concat bs !! i = Some v ->
          vector_id v
          = ToString (get (metadata doc) "source") +:+ "_" +:+ pretty i
          /\ vector_values v = es !! i)
    /\ batched_by_hundred (length (doc_chunks doc)) bs.

(** The run of [updatePinecone]: one run of the loop body per document,
    each from the world the previous one left, its embedding call
    answered. *)
Definition doc_run (indexName : string) (doc : Document number)
    (t : list (Event number)) : Prop :=
  exists w' es,
    (OpenAIEmbeddings_embedDocuments (doc_texts doc) w').1 = Ok es
    /\ t = trace (updatePinecone_doc indexName doc w').

(** What one run of the loop body does with the text of each chunk: the
    embedding service is sent the newline-stripped texts, in one call, and
    the record of the [i]-th chunk holds the chunk's own [pageContent] under
    [metadata.pageContent]. *)
Definition raw_text_stored (doc : Document number)
    (t : list (Event number)) : Prop :=
  embedded_documents t
  = [(fun chunk => replace_newlines (pageContent chunk)) <$> doc_chunks doc]
  /\ length (concat (upserts t)) = length (doc_chunks doc)
  /\ forall i chunk,
       doc_chunks doc !! i = Some chunk ->
       exists v,
         concat (upserts t) !! i = Some v
         /\ vector_metadata v !! "pageContent"
            = Some (JString (pageContent chunk))
         /\ (has_newline (pageContent chunk) = true ->
             vector_metadata v !! "pageContent"
             ≠ Some (JString (replace_newlines (pageContent chunk)))).

End ingestion_terms.

Section embedding_terms.
Context {number W : Type} `{!Axios number W}.
Variable LLAMA_SERVICE_ORIGIN : option string.

(** The texts that the batching client hands to [chunkArray]. *)
Definition prepared (this : LlamaBatched.LlamaEmbeddings)
    (texts : list string) : list string :=
  if LlamaBatched.stripNewLines this then replace_newlines <$> texts else texts.

(** The body with which a service that embeds every text by [embed]
    answers a request for [texts]. *)
Definition answer (embed : string -> list number) (texts : list string)
    : EmbeddingResponse number :=
  mkEmbeddingResponse ((fun t => mkEmbeddingData (embed t)) <$> texts).

Definition batch_requests (batches : list (list string))
    : list (M (Event number) W (EmbeddingResponse number)) :=
  (fun batch =>
     LlamaBatched.embeddingWithRetry LLAMA_SERVICE_ORIGIN (InputArray batch))
  <$> batches.

End embedding_terms.

(** ** A reference world *)

(** A small, executable stand-in for the collaborators, on which the
    program can be run: an index service that keeps its index names and
    its records, an embedding service that answers each text with its
    byte codes, a splitter that cuts at every [chunkSize] bytes, and a
    chain that answers with the question it was asked. *)
Module Reference.

Record World : Type := mkWorld {
  indexes : list string;
  records : list (Vector Z)
}.

Definition empty : World := {| indexes := []; records := [] |}.

Definition embed (s : string) : list Z :=
  (fun c => Z.of_nat (nat_of_ascii c)) <$> String.list_ascii_of_string s.

Definition to_match (v : Vector Z) : Match Z :=
  {| match_id := vector_id v;
     score := None;
     match_values := vector_values v;
     match_metadata := Some (vector_metadata v) |}.

(** Insert or overwrite by id. *)
Definition store (new old : list (Vector Z)) : list (Vector Z) :=
  filter (fun v => vector_id v ∉ vector_id <$> new) old ++ new.

Fixpoint render (j : Json Z) : string :=
  match j with
  | JsNull => "null"
  | JsBool b => if b then "true" else "false"
  | JsNumber n => pretty n
  | JsString s => quoted s
  | JsArray items =>
      "[" +:+
      (fix go (l : list (Json Z)) : string :=
         match l with
         | [] => ""
         | x :: l' =>
             match l' with
             | [] => render x
             | _ :: _ => render x +:+ "," +:+ go l'
             end
         end) items
      +:+ "]"
  | JsObject fields =>
      "{" +:+
      (fix go (l : list (string * Json Z)) : string :=
         match l with
         | [] => ""
         | (k, x) :: l' =>
             match l' with
             | [] => quoted k +:+ ":" +:+ render x
             | _ :: _ => quoted k +:+ ":" +:+ render x +:+ "," +:+ go l'
             end
         end) fields
      +:+ "}"
  end.

#[global] Instance runtime : JSRuntime Z :=
  {| Number_toString := pretty; JSON_text := render |}.

#[global] Instance pinecone : PineconeClient Z World :=
  {| pinecone_init := fun _ _ w => (Ok tt, w);
     pinecone_listIndexes := fun w => (Ok (indexes w), w);
     pinecone_createIndex := fun r w =>
       if bool_decide (name r ∈ indexes w)
       then (Err (Rejected "ALREADY_EXISTS"), w)
       else (Ok tt, {| indexes := indexes w ++ [name r];
                       records := records w |});
     pinecone_upsert := fun _ vs w =>
       (Ok tt, {| indexes := indexes w; records := store vs (records w) |});
     pinecone_query := fun _ q w =>
       (Ok (mkQueryResponse (Some (take (topK q) (to_match <$> records w)))),
        w);
     elapse := fun _ w => w |}.

#[global] Instance langchain : LangChain Z World :=
  {| RecursiveCharacterTextSplitter_createDocuments := fun chunkSize texts =>
       texts ≫= fun t =>
         (fun piece => mkDocument (String.string_of_list_ascii piece) ∅)
         <$> slices chunkSize (String.list_ascii_of_string t);
     OpenAIEmbeddings_embedDocuments := fun texts w => (Ok (embed <$> texts), w);
     OpenAIEmbeddings_embedQuery := fun q w => (Ok (embed q), w);
     loadQAStuffChain_call := fun _ question w =>
       (Ok {| text := question |}, w) |}.

#[global] Instance axios : Axios Z World :=
  {| axios_post := fun _ input w =>
       (Ok (mkEmbeddingResponse
              ((fun t => mkEmbeddingData (embed t))
               <$> match input with
                   | InputString s => [s]
                   | InputArray l => l
                   end)), w) |}.

(** A document with a source and a text of three bytes. *)
Definition doc_a : Document Z :=
  mkDocument "abc" {[ "source" := JString "a.txt" ]}.

(** A text of two lines. *)
Definition two_lines : string := "a" +:+ String newline "b".

(** A document whose text has a newline. *)
Definition doc_b : Document Z :=
  mkDocument two_lines {[ "source" := JString "b.txt" ]}.

(** A client with batches of two. *)
Definition pairs : LlamaBatched.LlamaEmbeddings :=
  LlamaBatched.constructor (Some (LlamaBatched.mkParams (Some 2) None)).

(** The world after [doc_a] was ingested into the index named idx. *)
Definition ingested : World :=
  world (updatePinecone "idx" [doc_a] empty).

End Reference.

(** ** Further observations and terms *)

Section more_observations.
Context {number : Type}.

(** The waits, in milliseconds. *)
Definition waits (t : list (Event number)) : list number :=
  omap (fun ev => match ev with SetTimeout ms => Some ms | _ => None end) t.

(** The queries sent to the index. *)
Definition queries (t : list (Event number))
    : list (string * QueryRequest number) :=
  omap (fun ev => match ev with Query i q => Some (i, q) | _ => None end) t.

(** The questions handed to the OpenAI embeddings. *)
Definition embedded_queries (t : list (Event number)) : list string :=
  omap (fun ev => match ev with OpenAIEmbedQuery q => Some q | _ => None end) t.

(** What identifies a record and what it carries beside its values. *)
Definition record_key (v : Vector number)
    : string * gmap string (JSValue number) :=
  (vector_id v, vector_metadata v).

End more_observations.

(** Whether a string holds the underscore of the record ids. *)
Fixpoint has_underscore (s : string) : bool :=
  match s with
  | EmptyString => false
  | String c s' => Ascii.eqb c "_"%char || has_underscore s'
  end.

Section more_terms.
Context {number W : Type} `{!JSRuntime number}.

(** What a match adds to the context of the completion call. *)
Definition stored_text (m : Match number) : string :=
  match match_metadata m with
  | Some md =>
      match md !! "pageContent" with
      | Some (JString s) => s
      | Some JUndefined | Some JNull | None => ""
      | Some v => ToString v
      end
  | None => ""
  end.

(** One call after the other, the results gathered in order. *)
Fixpoint mapM {E A B} (f : A -> M E W B) (l : list A) : M E W (list B) :=
  match l with
  | [] => mret []
  | x :: l' =>
      y ← f x;
      ys ← mapM f l';
      mret (y :: ys)
  end.

End more_terms.

Section request_terms.
Context {number W : Type} `{!Axios number W}.

(** The request for the embedding of one text fails with [e]: it is
    rejected with [e], or its answer holds no embedding and reading
    [data[0].embedding] is the TypeError [e]. *)
Definition request_fails (LLAMA_SERVICE_ORIGIN : option string)
    (document : string) (w : W) (e : Error) : Prop :=
  (axios_post (embeddings_url LLAMA_SERVICE_ORIGIN) (InputString document) w).1
  = Err e
  \/ exists response,
       (axios_post (embeddings_url LLAMA_SERVICE_ORIGIN)
          (InputString document) w).1
       = Ok response
       /\ data response = []
       /\ e = TypeError
                "Cannot read properties of undefined (reading 'embedding')".

End request_terms.

(** ** A world that runs out *)

(** The collaborators of the reference world behind a connection that
    carries only so many calls: each call uses one up, and when none is
    left every call is rejected. *)
Module Flaky.

Record World : Type := mkWorld {
  calls_left : nat
}.

Definition attempt {A} (a : A) (w : World) : Result A * World :=
  match calls_left w with
  | 0 => (Err (Rejected "ECONNRESET"), w)
  | S n => (Ok a, {| calls_left := n |})
  end.

(** The one record the index holds. *)
Definition held : Match Z :=
  {| match_id := "a.txt_0";
     score := None;
     match_values := None;
     match_metadata := Some {[ "pageContent" := JString "abc" ]} |}.

Definition pinecone : PineconeClient Z World :=
  {| pinecone_init := fun _ _ => attempt tt;
     pinecone_listIndexes := attempt [];
     pinecone_createIndex := fun _ => attempt tt;
     pinecone_upsert := fun _ _ => attempt tt;
     pinecone_query := fun _ _ => attempt (mkQueryResponse (Some [held]));
     elapse := fun _ w => w |}.

Definition langchain : LangChain Z World :=
  {| RecursiveCharacterTextSplitter_createDocuments :=
       RecursiveCharacterTextSplitter_createDocuments (W:=Reference.World);
     OpenAIEmbeddings_embedDocuments := fun texts =>
       attempt (Reference.embed <$> texts);
     OpenAIEmbeddings_embedQuery := fun q => attempt (Reference.embed q);
     loadQAStuffChain_call := fun _ question =>
       attempt {| text := question |} |}.

Definition axios : Axios Z World :=
  {| axios_post := fun _ input =>
       attempt
         (mkEmbeddingResponse
            ((fun t => mkEmbeddingData (Reference.embed t))
             <$> match input with
                 | InputString s => [s]
                 | InputArray l => l
                 end)) |}.

Definition with_calls (n : nat) : World := {| calls_left := n |}.

End Flaky.

(** ** An embedding service that refuses empty texts *)

(** The service rejects a list holding an empty text, and answers a single
    empty text with a body that holds no embedding. *)
Module Picky.

Record World : Type := mkWorld { }.

Definition here : World := mkWorld.

Definition axios : Axios Z World :=
  {| axios_post := fun _ input w =>
       match input with
       | InputString s =>
           if bool_decide (s = "")
           then (Ok (mkEmbeddingResponse []), w)
           else (Ok (mkEmbeddingResponse [mkEmbeddingData (Reference.embed s)]),
                 w)
       | InputArray l =>
           if bool_decide ("" ∈ l)
           then (Err (Rejected "400 Bad Request"), w)
           else (Ok (mkEmbeddingResponse
                       ((fun t => mkEmbeddingData (Reference.embed t)) <$> l)),
                 w)
       end |}.

End Picky.

(** * Properties *)

(** ** Running computations *)

Section run.
Context {E W : Type}.

Lemma run_ret {A} (a : A) (w : W) : (mret a : M E W A) w = (Ok a, w, []).
Proof. reflexivity. Qed.

Lemma run_bind_ok {A B} (m : M E W A) (f : A -> M E W B) w a w1 t1 :
  m w = (Ok a, w1, t1) ->
  (m ≫= f) w = ((f a w1).1.1, (f a w1).1.2, t1 ++ (f a w1).2).
Proof.
  intros Hm. unfold mbind, M_bind. rewrite Hm.
  by destruct (f a w1) as [[r w2] t2].
Qed.

Lemma run_bind_err {A B} (m : M E W A) (f : A -> M E W B) w e w1 t1 :
  m w = (Err e, w1, t1) -> (m ≫= f) w = (Err e, w1, t1).
Proof. intros Hm. unfold mbind, M_bind. by rewrite Hm. Qed.

(** The monad laws, world by world. *)
Lemma bind_ret_l {A B} (a : A) (f : A -> M E W B) w : (mret a ≫= f) w = f a w.
Proof.
  unfold mbind, M_bind, mret, M_ret. by destruct (f a w) as [[r w2] t2].
Qed.

Lemma bind_ret_r {A} (m : M E W A) w : (m ≫= mret) w = m w.
Proof.
  unfold mbind, M_bind, mret, M_ret.
  destruct (m w) as [[[a|e] w1] t1]; [|done]. by rewrite app_nil_r.
Qed.

Lemma bind_assoc {A B C} (m : M E W A) (f : A -> M E W B)
    (g : B -> M E W C) w :
  ((m ≫= f) ≫= g) w = (m ≫= fun a => f a ≫= g) w.
Proof.
  unfold mbind, M_bind.
  destruct (m w) as [[[a|e] w1] t1]; [|done].
  destruct (f a w1) as [[[b|e] w2] t2]; [|done].
  destruct (g b w2) as [[r w3] t3]. by rewrite (assoc_L (++)).
Qed.

Lemma run_emit (ev : E) (w : W) : emit ev w = (Ok tt, w, [ev]).
Proof. reflexivity. Qed.

Lemma run_call {A} (ev : E) (oracle : W -> Result A * W) (w : W) :
  call ev oracle w = ((oracle w).1, (oracle w).2, [ev]).
Proof. unfold call. by destruct (oracle w). Qed.

Lemma run_emit_bind {B} (ev : E) (f : unit -> M E W B) w :
  (emit ev ≫= f) w = ((f tt w).1.1, (f tt w).1.2, ev :: (f tt w).2).
Proof.
  unfold mbind, M_bind, emit. by destruct (f tt w) as [[r w2] t2].
Qed.

Lemma run_call_bind_ok {A B} (ev : E) (oracle : W -> Result A * W)
    (f : A -> M E W B) w a :
  (oracle w).1 = Ok a ->
  (call ev oracle ≫= f) w
  = ((f a (oracle w).2).1.1, (f a (oracle w).2).1.2,
     ev :: (f a (oracle w).2).2).
Proof.
  intros Ho. unfold mbind, M_bind, call.
  destruct (oracle w) as [r w1]; simpl in *; subst r.
  by destruct (f a w1) as [[r w2] t2].
Qed.

Lemma run_call_bind_err {A B} (ev : E) (oracle : W -> Result A * W)
    (f : A -> M E W B) w e :
  (oracle w).1 = Err e ->
  (call ev oracle ≫= f) w = (Err e, (oracle w).2, [ev]).
Proof.
  intros Ho. unfold mbind, M_bind, call.
  by destruct (oracle w) as [r w1]; simpl in *; subst r.
Qed.

(** A sequence whose first part succeeds. *)
Lemma bind_ok {A B} (m : M E W A) (f : A -> M E W B) w a :
  outcome (m w) = Ok a ->
  outcome ((m ≫= f) w) = outcome (f a (world (m w)))
  /\ world ((m ≫= f) w) = world (f a (world (m w)))
  /\ trace ((m ≫= f) w) = trace (m w) ++ trace (f a (world (m w))).
Proof.
  unfold outcome, world, trace, mbind, M_bind.
  destruct (m w) as [[r w1] t1]; simpl. intros ->.
  by destruct (f a w1) as [[r w2] t2].
Qed.

(** A sequence whose first part fails stops there. *)
Lemma bind_err {A B} (m : M E W A) (f : A -> M E W B) w e :
  outcome (m w) = Err e ->
  outcome ((m ≫= f) w) = Err e
  /\ world ((m ≫= f) w) = world (m w)
  /\ trace ((m ≫= f) w) = trace (m w).
Proof.
  unfold outcome, world, trace, mbind, M_bind.
  destruct (m w) as [[r w1] t1]; simpl. by intros ->.
Qed.

(** The trace of a sequence starts with the trace of its first part. *)
Lemma trace_bind_prefix {A B} (m : M E W A) (f : A -> M E W B) w :
  trace (m w) `prefix_of` trace ((m ≫= f) w).
Proof.
  unfold mbind, M_bind, trace.
  destruct (m w) as [[[a|e] w1] t1]; simpl; [|done].
  destruct (f a w1) as [[r w2] t2]; simpl. by apply prefix_app_r.
Qed.

End run.

(** ** Slices *)

Section slices_facts.
Context {A : Type}.
Implicit Types (l b : list A) (n k : nat).

Lemma slices_step n l :
  0 < n -> l ≠ [] -> slices n l = take n l :: slices n (drop n l).
Proof.
  intros Hn Hl. destruct n as [|n]; [lia|].
  destruct l as [|x xs]; [done|]. by simp slices.
Qed.

Lemma slices_nil_iff n l : 0 < n -> slices n l = [] <-> l = [].
Proof.
  intros Hn. split; [|by intros ->; simp slices].
  destruct l as [|x xs]; [done|]. by rewrite slices_step.
Qed.

(** A full run in front is the first slice. *)
Lemma slices_app_full n b l :
  0 < n -> length b = n -> slices n (b ++ l) = b :: slices n l.
Proof.
  intros Hn Hb. rewrite slices_step; [|done|].
  - rewrite take_app_length', drop_app_length'; done.
  - intros Heq. apply (f_equal length) in Heq.
    rewrite length_app in Heq. simpl in Heq. lia.
Qed.

(** What fits in one run is one slice. *)
Lemma slices_short n l : l ≠ [] -> length l ≤ n -> slices n l = [l].
Proof.
  intros Hl Hle. rewrite slices_step; [|destruct l; simpl in *; [done|lia]|done].
  rewrite take_ge, drop_ge by done. by simp slices.
Qed.

Lemma concat_slices n l : 0 < n -> concat (slices n l) = l.
Proof.
  intros Hn. funelim (slices n l); simp slices; [done|lia|].
  simpl. rewrite H by lia. by rewrite take_drop.
Qed.

Lemma Forall_slices n l :
  Forall (fun b => 0 < length b ≤ n) (slices n l).
Proof.
  funelim (slices n l); simp slices; [done..|].
  constructor; [|done]. simpl. rewrite length_take. lia.
Qed.

Lemma length_slices n l :
  0 < n -> length (slices n l) = (length l + n - 1) / n.
Proof.
  intros Hn. funelim (slices n l); simp slices; [| lia |].
  - cbn [length]. symmetry. apply Nat.div_small. lia.
  - cbn [length]. rewrite H by lia. rewrite length_drop.
    destruct (decide (length xs ≤ n)) as [Hle|Hgt].
    + replace (length xs - n) with 0 by lia.
      replace (0 + S n - 1) with n by lia.
      rewrite (Nat.div_small n (S n)) by lia.
      replace (S (length xs) + S n - 1) with (length xs + 1 * S n) by lia.
      rewrite Nat.div_add by lia. rewrite Nat.div_small; lia.
    + replace (S (length xs) + S n - 1)
        with ((length xs - n + S n - 1) + 1 * S n) by lia.
      rewrite Nat.div_add by lia. lia.
Qed.

(** Every slice but the last is full. *)
Lemma slices_full_but_last n l k b :
  slices n l !! k = Some b -> S k < length (slices n l) -> length b = n.
Proof.
  revert k. funelim (slices n l); simp slices; intros k; [done..|].
  destruct k as [|k]; simpl.
  - intros [= <-] Hlen. simpl.
    assert (slices (S n) (drop n xs) ≠ []) as Hne
      by (destruct (slices (S n) (drop n xs)); simpl in *; [lia|done]).
    rewrite slices_nil_iff in Hne by lia.
    rewrite length_take. destruct (decide (length xs ≤ n)) as [Hle|]; [|lia].
    by rewrite drop_ge in Hne.
  - intros Hk Hlen. eapply H; [done|lia].
Qed.

(** The last slice holds the remainder, or a full run when there is none. *)
Lemma slices_last n l b :
  0 < n -> last (slices n l) = Some b ->
  length b = if decide (length l mod n = 0) then n else length l mod n.
Proof.
  intros Hn. funelim (slices n l); simp slices; [done|lia|].
  destruct (decide (length xs ≤ n)) as [Hle|Hgt].
  - rewrite drop_ge by done. simp slices. cbn [last]. intros [= <-].
    rewrite take_ge by done. cbn [length].
    destruct (decide (length xs = n)) as [Heq|Hne].
    + rewrite Heq, Nat.Div0.mod_same. by rewrite decide_True.
    + rewrite Nat.mod_small by lia. by rewrite decide_False.
  - assert (slices (S n) (drop n xs) ≠ []) as Hne.
    { rewrite slices_nil_iff by lia. intros Hd.
      apply (f_equal length) in Hd. rewrite length_drop in Hd.
      simpl in Hd. lia. }
    destruct (slices (S n) (drop n xs)) as [|b0 bs] eqn:Hs; [done|].
    rewrite last_cons_cons. intros Hlast.
    specialize (H b ltac:(lia) Hlast). rewrite H, length_drop. cbn [length].
    replace (S (length xs)) with ((length xs - n) + 1 * S n) by lia.
    by rewrite Nat.Div0.mod_add.
Qed.

End slices_facts.

(** ** Ingestion *)

Section ingestion.
Context {number W : Type}.
Context `{!JSRuntime number, !PineconeClient number W, !LangChain number W}.
Implicit Types (w : W) (doc chunk : Document number).
Implicit Types (es : list (list number)) (batch : list (Vector number)).

(** The upsert loop sends the slices of what it was given and what it
    builds, as long as no upsert is rejected. *)
Lemma upsert_loop_run indexName txtPath chunks_length es :
  (forall vs w, (pinecone_upsert indexName vs w).1 = Ok tt) ->
  forall rest idx batch w,
    idx + length rest = chunks_length ->
    (rest = [] -> batch = []) ->
    length batch < batchSize ->
    outcome (upsert_loop indexName txtPath chunks_length es idx rest batch w)
    = Ok tt
    /\ trace (upsert_loop indexName txtPath chunks_length es idx rest batch w)
       = Upsert indexName
         <$> slices batchSize
               (batch ++ imap (fun i => make_vector txtPath es (idx + i)) rest).
Proof.
  intros Hupsert. unfold outcome, trace.
  induction rest as [|chunk rest IH]; intros idx batch w Hidx Hbatch Hlen.
  - rewrite (Hbatch eq_refl). simpl. by simp slices.
  - cbn [upsert_loop imap]. rewrite Nat.add_0_r.
    set (batch' := batch ++ [make_vector txtPath es idx chunk]).
    assert (length batch' = S (length batch)) as Hlen'
      by (unfold batch'; rewrite length_app; simpl; lia).
    replace (batch ++ make_vector txtPath es idx chunk
               :: imap ((fun i => make_vector txtPath es (idx + i)) ∘ S) rest)
      with (batch' ++ imap (fun i => make_vector txtPath es (S idx + i)) rest).
    2:{ unfold batch'. rewrite <- (assoc_L (++)). simpl. do 2 f_equal.
        apply imap_ext. intros i x _. simpl. f_equal. lia. }
    simpl in Hidx.
    destruct (bool_decide (length batch' = batchSize)) eqn:Hfull; simpl.
    + apply bool_decide_eq_true in Hfull.
      rewrite (run_call_bind_ok _ _ _ _ tt) by apply Hupsert. simpl.
      destruct (IH (S idx) [] (pinecone_upsert indexName batch' w).2)
        as [-> ->]; [lia|done|unfold batchSize; simpl; lia|].
      rewrite (slices_app_full _ batch'); [|unfold batchSize; lia|done].
      split; reflexivity.
    + apply bool_decide_eq_false in Hfull.
      destruct (bool_decide (Z.of_nat idx = (Z.of_nat chunks_length - 1)%Z))
        eqn:Hend.
      * apply bool_decide_eq_true in Hend.
        assert (rest = []) as -> by (apply length_zero_iff_nil; lia).
        rewrite (run_call_bind_ok _ _ _ _ tt) by apply Hupsert. simpl.
        rewrite app_nil_r, slices_short; [done| |lia].
        unfold batch'. by destruct batch.
      * apply bool_decide_eq_false in Hend.
        apply IH; [lia| |lia].
        intros ->. simpl in Hidx. lia.
Qed.

Lemma upserts_app (t1 t2 : list (Event number)) :
  upserts (t1 ++ t2) = upserts t1 ++ upserts t2.
Proof. apply omap_app. Qed.

Lemma upserts_Upsert indexName (bs : list (list (Vector number))) :
  upserts (Upsert indexName <$> bs) = bs.
Proof. induction bs as [|b bs IH]; [done|]. simpl. by f_equal. Qed.

Lemma embedded_documents_Upsert indexName (bs : list (list (Vector number))) :
  embedded_documents (Upsert indexName <$> bs) = [].
Proof. by induction bs. Qed.

(** One document: the texts embedded and the batches upserted. *)
Lemma updatePinecone_doc_run indexName doc w es :
  (forall vs w, (pinecone_upsert indexName vs w).1 = Ok tt) ->
  (OpenAIEmbeddings_embedDocuments (doc_texts doc) w).1 = Ok es ->
  outcome (updatePinecone_doc indexName doc w) = Ok tt
  /\ embedded_documents (trace (updatePinecone_doc indexName doc w))
     = [doc_texts doc]
  /\ upserts (trace (updatePinecone_doc indexName doc w))
     = slices batchSize (doc_records doc es).
Proof.
  intros Hupsert Hembed. unfold updatePinecone_doc.
  fold (doc_chunks doc). fold (doc_texts doc).
  unfold outcome, trace. rewrite !run_emit_bind. simpl.
  rewrite (run_call_bind_ok _ _ _ _ es) by done. simpl.
  rewrite run_emit_bind. simpl.
  destruct (upsert_loop_run indexName (get (metadata doc) "source")
              (length (doc_chunks doc)) es Hupsert (doc_chunks doc) 0 []
              (OpenAIEmbeddings_embedDocuments (doc_texts doc) w).2)
    as [Hout Htr]; [done|done|unfold batchSize; simpl; lia|].
  unfold outcome, trace in Hout, Htr. rewrite Hout, Htr.
  rewrite embedded_documents_Upsert, upserts_Upsert. done.
Qed.

Lemma slices_batched_by_hundred (l : list (Vector number)) :
  batched_by_hundred (length l) (slices batchSize l).
Proof.
  unfold batched_by_hundred, batchSize. split_and!.
  - apply Forall_slices.
  - apply slices_full_but_last.
  - intros b. apply slices_last. lia.
  - rewrite length_slices by lia. f_equal. lia.
Qed.

Lemma doc_records_lookup doc es i v :
  doc_records doc es !! i = Some v ->
  vector_id v = ToString (get (metadata doc) "source") +:+ "_" +:+ pretty i
  /\ vector_values v = es !! i.
Proof.
  unfold doc_records. rewrite list_lookup_imap.
  destruct (doc_chunks doc !! i) as [chunk|]; simpl; [|done].
  by intros [= <-].
Qed.

(** The ids of the records of one document are pairwise distinct: an
    upsert of them overwrites nothing it has just written. *)
Lemma append_inj_r (p a b : string) : p +:+ a = p +:+ b -> a = b.
Proof. induction p as [|c p IH]; simpl; [done|]. intros [= ?]. by apply IH. Qed.

Lemma doc_records_ids_distinct doc es :
  NoDup (vector_id <$> doc_records doc es).
Proof.
  unfold doc_records. rewrite fmap_imap.
  rewrite (imap_ext _
             (fun i _ => ToString (get (metadata doc) "source") +:+ "_"
                         +:+ pretty i)) by done.
  rewrite imap_seq_0. apply NoDup_fmap_2_strong; [|apply NoDup_seq].
  intros i j _ _ Heq. apply append_inj_r in Heq.
  injection Heq as Heq. by apply (inj pretty).
Qed.

Lemma updatePinecone_doc_ingested indexName doc w es :
  (forall vs w, (pinecone_upsert indexName vs w).1 = Ok tt) ->
  (OpenAIEmbeddings_embedDocuments (doc_texts doc) w).1 = Ok es ->
  doc_ingested doc (upserts (trace (updatePinecone_doc indexName doc w))).
Proof.
  intros Hupsert Hembed.
  destruct (updatePinecone_doc_run indexName doc w es Hupsert Hembed)
    as (_ & _ & ->).
  exists es, w. rewrite concat_slices by (unfold batchSize; lia).
  split_and!; [done|done| |apply doc_records_lookup|].
  - unfold doc_records. by rewrite length_imap.
  - replace (length (doc_chunks doc)) with (length (doc_records doc es))
      by (unfold doc_records; by rewrite length_imap).
    apply slices_batched_by_hundred.
Qed.

Lemma for_of_updatePinecone_doc indexName docs w :
  (forall vs w, (pinecone_upsert indexName vs w).1 = Ok tt) ->
  (forall texts w, exists es,
      (OpenAIEmbeddings_embedDocuments texts w).1 = Ok es) ->
  outcome (for_of docs (updatePinecone_doc indexName) w) = Ok tt
  /\ exists ts,
       trace (for_of docs (updatePinecone_doc indexName) w) = concat ts
       /\ Forall2 (doc_run indexName) docs ts.
Proof.
  intros Hupsert Hembed. revert w.
  induction docs as [|doc docs IH]; intros w.
  - split; [done|]. by exists [].
  - cbn [for_of].
    destruct (Hembed (doc_texts doc) w) as [es Hes].
    destruct (updatePinecone_doc_run indexName doc w es Hupsert Hes)
      as (Hout & _ & _).
    destruct (bind_ok (updatePinecone_doc indexName doc)
                (fun _ => for_of docs (updatePinecone_doc indexName)) w tt Hout)
      as (-> & _ & ->).
    destruct (IH (world (updatePinecone_doc indexName doc w)))
      as (-> & ts & -> & Hall).
    split; [done|].
    exists (trace (updatePinecone_doc indexName doc w) :: ts).
    split; [done|]. constructor; [|done]. by exists w, es.
Qed.

Lemma updatePinecone_run indexName docs w :
  (forall vs w, (pinecone_upsert indexName vs w).1 = Ok tt) ->
  (forall texts w, exists es,
      (OpenAIEmbeddings_embedDocuments texts w).1 = Ok es) ->
  outcome (updatePinecone indexName docs w) = Ok tt
  /\ exists ts,
       trace (updatePinecone indexName docs w)
       = ConsoleLog ("Pinecone index retrieved: " +:+ indexName) :: concat ts
       /\ Forall2 (doc_run indexName) docs ts.
Proof.
  intros Hupsert Hembed. unfold updatePinecone.
  destruct (for_of_updatePinecone_doc indexName docs w Hupsert Hembed)
    as (Hout & ts & Hts & Hall).
  unfold outcome, trace in *. rewrite run_emit_bind. simpl.
  split; [done|]. exists ts. by rewrite Hts.
Qed.

Lemma upserts_concat (ts : list (list (Event number))) :
  upserts (concat ts) = concat (upserts <$> ts).
Proof.
  induction ts as [|t ts IH]; [done|].
  simpl. by rewrite upserts_app, IH.
Qed.

(** C1.  Ingestion, as long as the embedding service answers and no upsert
    is rejected: the upsert requests of [updatePinecone] are, document after
    document, the batches of that document.  For a document that splits into
    M chunks the batches hold, taken together, exactly M records in the
    order of the chunks, the i-th with the id [`${txtPath}_${i}`] and the
    i-th embedding of the service's answer; no batch is empty or holds more
    than 100 records, every batch but the last holds exactly 100 (a batch
    is sent when it reaches 100), the last holds M mod 100 records, or 100
    when M is a positive multiple of 100 (it is sent at the last chunk), and
    there are ceil(M/100) batches. *)
Theorem updatePinecone_batches indexName docs w :
  (forall vs w, (pinecone_upsert indexName vs w).1 = Ok tt) ->
  (forall texts w, exists es,
      (OpenAIEmbeddings_embedDocuments texts w).1 = Ok es) ->
  outcome (updatePinecone indexName docs w) = Ok tt
  /\ exists groups,
       upserts (trace (updatePinecone indexName docs w)) = concat groups
       /\ Forall2 doc_ingested docs groups.
Proof.
  intros Hupsert Hembed.
  destruct (updatePinecone_run indexName docs w Hupsert Hembed)
    as (Hout & ts & -> & Hall).
  split; [done|]. exists (upserts <$> ts). split.
  - change (upserts (?e :: ?t)) with (upserts t). apply upserts_concat.
  - apply Forall2_fmap_r. eapply Forall2_impl; [done|].
    intros doc t (w' & es & Hes & ->). simpl.
    by eapply updatePinecone_doc_ingested.
Qed.

Lemma replace_newlines_changes s :
  has_newline s = true -> replace_newlines s ≠ s.
Proof.
  induction s as [|c s IH]; simpl; [done|].
  destruct (Ascii.eqb c newline) eqn:Hc; simpl.
  - apply Ascii.eqb_eq in Hc as ->. intros _. by intros [= ?].
  - intros Hs [= Heq]. by apply IH.
Qed.

Lemma replace_newlines_id s :
  has_newline s = false -> replace_newlines s = s.
Proof.
  induction s as [|c s IH]; simpl; [done|].
  destruct (Ascii.eqb c newline) eqn:Hc; simpl; [done|].
  intros Hs. by rewrite IH.
Qed.

Lemma make_vector_pageContent txtPath es idx chunk :
  vector_metadata (make_vector txtPath es idx chunk) !! "pageContent"
  = Some (JString (pageContent chunk)).
Proof.
  unfold make_vector. simpl.
  rewrite lookup_insert_ne by done. by rewrite lookup_insert_eq.
Qed.

Lemma updatePinecone_doc_raw_text indexName doc w es :
  (forall vs w, (pinecone_upsert indexName vs w).1 = Ok tt) ->
  (OpenAIEmbeddings_embedDocuments (doc_texts doc) w).1 = Ok es ->
  raw_text_stored doc (trace (updatePinecone_doc indexName doc w)).
Proof.
  intros Hupsert Hembed.
  destruct (updatePinecone_doc_run indexName doc w es Hupsert Hembed)
    as (_ & Hemb & Hups).
  unfold raw_text_stored. rewrite Hemb, Hups.
  rewrite concat_slices by (unfold batchSize; lia).
  split_and!; [done|unfold doc_records; by rewrite length_imap|].
  intros i chunk Hi.
  exists (make_vector (get (metadata doc) "source") es i chunk).
  split_and!.
  - unfold doc_records. by rewrite list_lookup_imap, Hi.
  - apply make_vector_pageContent.
  - rewrite make_vector_pageContent. intros Hnl [= Heq].
    by apply (replace_newlines_changes _ Hnl).
Qed.

(** C10.  For every chunk of every document, as long as the embedding
    service answers and no upsert is rejected: the text sent to the
    embedding service is the chunk's [pageContent] with its newlines
    replaced, while the record upserted for the chunk stores the chunk's
    own [pageContent] under [metadata.pageContent]; whenever the chunk has a
    newline, what is stored is not the stripped text. *)
Theorem updatePinecone_stores_raw_text indexName docs w :
  (forall vs w, (pinecone_upsert indexName vs w).1 = Ok tt) ->
  (forall texts w, exists es,
      (OpenAIEmbeddings_embedDocuments texts w).1 = Ok es) ->
  exists ts,
    trace (updatePinecone indexName docs w)
    = ConsoleLog ("Pinecone index retrieved: " +:+ indexName) :: concat ts
    /\ Forall2 raw_text_stored docs ts.
Proof.
  intros Hupsert Hembed.
  destruct (updatePinecone_run indexName docs w Hupsert Hembed)
    as (_ & ts & -> & Hall).
  exists ts. split; [done|]. eapply Forall2_impl; [done|].
  intros doc t (w' & es & Hes & ->).
  by eapply updatePinecone_doc_raw_text.
Qed.

End ingestion.

Lemma updatePinecone_batches_witness :
  outcome (updatePinecone "idx" [Reference.doc_a] Reference.empty) = Ok tt
  /\ exists groups,
       upserts (trace (updatePinecone "idx" [Reference.doc_a] Reference.empty))
       = concat groups
       /\ Forall2 doc_ingested [Reference.doc_a] groups.
Proof.
  apply (updatePinecone_batches "idx" [Reference.doc_a] Reference.empty).
  - intros vs w. reflexivity.
  - intros texts w. eexists. reflexivity.
Defined.

Lemma updatePinecone_stores_raw_text_witness :
  exists ts,
    trace (updatePinecone "idx" [Reference.doc_b] Reference.empty)
    = ConsoleLog ("Pinecone index retrieved: " +:+ "idx") :: concat ts
    /\ Forall2 raw_text_stored [Reference.doc_b] ts.
Proof.
  apply (updatePinecone_stores_raw_text "idx" [Reference.doc_b]
           Reference.empty).
  - intros vs w. reflexivity.
  - intros texts w. eexists. reflexivity.
Defined.

(** ** Query *)

Section query.
Context {number W : Type}.
Context `{!JSRuntime number, !PineconeClient number W, !LangChain number W}.
Implicit Types (w : W) (ms : list (Match number)).

(** [join] over strings is the concatenation with the separator between
    the elements. *)
Lemma join_strings sep (texts : list string) :
  join sep (JString <$> texts) = String.concat sep texts.
Proof.
  induction texts as [|s texts IH]; [done|].
  destruct texts as [|s' texts]; [done|].
  cbn [fmap list_fmap join String.concat join_element ToString] in *.
  by rewrite IH.
Qed.

(** The run of the pipeline once the question is embedded and the index
    has answered. *)
Lemma query_run_matches indexName question w qe resp m ms :
  (OpenAIEmbeddings_embedQuery question w).1 = Ok qe ->
  (pinecone_query indexName (mkQueryRequest 10 qe true true)
     (OpenAIEmbeddings_embedQuery question w).2).1 = Ok resp ->
  matches resp = Some (m :: ms) ->
  let w2 :=
    (pinecone_query indexName (mkQueryRequest 10 qe true true)
       (OpenAIEmbeddings_embedQuery question w).2).2 in
  let docs := [mkDocument (join " " (match_pageContent <$> (m :: ms))) ∅] in
  let q := question +:+ question_suffix in
  chain_calls (trace (queryPineconeVectorStoreAndQueryLLM indexName question w))
  = [(docs, q)]
  /\ outcome (queryPineconeVectorStoreAndQueryLLM indexName question w)
     = match (loadQAStuffChain_call docs q w2).1 with
       | Ok result => Ok (JString (text result))
       | Err e => Err e
       end.
Proof.
  intros Hqe Hresp Hms. unfold queryPineconeVectorStoreAndQueryLLM.
  unfold outcome, trace. rewrite run_emit_bind. simpl.
  rewrite (run_call_bind_ok _ _ _ _ qe) by done. simpl.
  rewrite (run_call_bind_ok _ _ _ _ resp) by done. simpl.
  rewrite !run_emit_bind. simpl. rewrite Hms.
  match goal with
  | |- context [loadQAStuffChain_call ?d ?q ?w'] =>
      destruct (loadQAStuffChain_call d q w').1 as [result|e] eqn:Hchain
  end.
  - rewrite (run_call_bind_ok _ _ _ _ result) by done. simpl.
    by rewrite ?run_emit_bind.
  - by rewrite (run_call_bind_err _ _ _ _ e) by done.
Qed.

(** C2, amended.  When the index answers with at least one match, the
    pipeline issues exactly one completion call; its context is one
    document holding the [metadata.pageContent] of the matches, in the order
    the index returned them, joined by single spaces (the concatenation of
    the stored texts with a space between them when they are all strings);
    its question is the original question followed by the fixed suffix
    ", trả lời bằng thơ nhé"; and the pipeline returns the text of the
    model's response, or fails as the call does. *)
Theorem query_with_matches_calls_completion_once indexName question w qe
    resp ms :
  (OpenAIEmbeddings_embedQuery question w).1 = Ok qe ->
  (pinecone_query indexName (mkQueryRequest 10 qe true true)
     (OpenAIEmbeddings_embedQuery question w).2).1 = Ok resp ->
  matches resp = Some ms ->
  ms ≠ [] ->
  let w2 :=
    (pinecone_query indexName (mkQueryRequest 10 qe true true)
       (OpenAIEmbeddings_embedQuery question w).2).2 in
  let context := join " " (match_pageContent <$> ms) in
  let q := question +:+ ", trả lời bằng thơ nhé" in
  chain_calls (trace (queryPineconeVectorStoreAndQueryLLM indexName question w))
  = [([mkDocument context ∅], q)]
  /\ outcome (queryPineconeVectorStoreAndQueryLLM indexName question w)
     = match (loadQAStuffChain_call [mkDocument context ∅] q w2).1 with
       | Ok result => Ok (JString (text result))
       | Err e => Err e
       end
  /\ forall texts,
       match_pageContent <$> ms = JString <$> texts ->
       context = String.concat " " texts.
Proof.
  intros Hqe Hresp Hms Hne. destruct ms as [|m ms]; [done|].
  destruct (query_run_matches indexName question w qe resp m ms Hqe Hresp Hms)
    as [Hcalls Hout].
  split_and!; [done|done|].
  intros texts ->. apply join_strings.
Qed.

(** C3.  When the index answers with no match (an empty [matches], or
    none at all), the pipeline makes no completion call, logs that there
    is no match and returns undefined. *)
Theorem query_without_matches_skips_completion indexName question w qe resp :
  (OpenAIEmbeddings_embedQuery question w).1 = Ok qe ->
  (pinecone_query indexName (mkQueryRequest 10 qe true true)
     (OpenAIEmbeddings_embedQuery question w).2).1 = Ok resp ->
  matches resp = None \/ matches resp = Some [] ->
  chain_calls (trace (queryPineconeVectorStoreAndQueryLLM indexName question w))
  = []
  /\ outcome (queryPineconeVectorStoreAndQueryLLM indexName question w)
     = Ok JUndefined
  /\ last (trace (queryPineconeVectorStoreAndQueryLLM indexName question w))
     = Some
         (ConsoleLog "There is no matches, so GPT-3 will not be queried.").
Proof.
  intros Hqe Hresp Hms. unfold queryPineconeVectorStoreAndQueryLLM.
  unfold outcome, trace. rewrite run_emit_bind. simpl.
  rewrite (run_call_bind_ok _ _ _ _ qe) by done. simpl.
  rewrite (run_call_bind_ok _ _ _ _ resp) by done. simpl.
  rewrite !run_emit_bind. simpl.
  destruct Hms as [-> | ->]; by rewrite ?run_emit_bind.
Qed.

End query.

Lemma query_with_matches_calls_completion_once_witness :
  chain_calls
    (trace (queryPineconeVectorStoreAndQueryLLM "idx" "q" Reference.ingested))
  = [([mkDocument "abc" ∅], "q, trả lời bằng thơ nhé")]
  /\ outcome (queryPineconeVectorStoreAndQueryLLM "idx" "q" Reference.ingested)
     = Ok (JString "q, trả lời bằng thơ nhé").
Proof.
  edestruct (query_with_matches_calls_completion_once "idx" "q"
               Reference.ingested) as (Hcalls & Hout & _).
  - reflexivity.
  - reflexivity.
  - reflexivity.
  - discriminate.
  - split; [exact Hcalls | exact Hout].
Defined.

(** The question put to the model is not the original question. *)
Lemma completion_question_is_not_the_original :
  snd <$> chain_calls
            (trace (queryPineconeVectorStoreAndQueryLLM "idx" "q"
                      Reference.ingested))
  ≠ ["q"].
Proof. vm_compute. discriminate. Qed.

Lemma query_without_matches_skips_completion_witness :
  chain_calls
    (trace (queryPineconeVectorStoreAndQueryLLM "idx" "q" Reference.empty))
  = []
  /\ outcome (queryPineconeVectorStoreAndQueryLLM "idx" "q" Reference.empty)
     = Ok JUndefined
  /\ last (trace (queryPineconeVectorStoreAndQueryLLM "idx" "q"
                    Reference.empty))
     = Some
         (ConsoleLog "There is no matches, so GPT-3 will not be queried.").
Proof.
  eapply (query_without_matches_skips_completion "idx" "q" Reference.empty).
  - reflexivity.
  - reflexivity.
  - right. reflexivity.
Defined.

(** ** Index provisioning *)

Section provisioning.
Context {number W : Type} `{!PineconeClient number W}.
Variable timeout : number.
Implicit Types (w : W) (existing : list string).

(** The index is already listed: nothing is created. *)
Lemma createPineconeIndex_present indexName dim w existing :
  (pinecone_listIndexes w).1 = Ok existing ->
  indexName ∈ existing ->
  createPineconeIndex timeout indexName dim w
  = (Ok tt, (pinecone_listIndexes w).2,
     [ConsoleLog ("Checking " +:+ quoted indexName +:+ "...");
      ListIndexes;
      ConsoleLog (quoted indexName +:+ " already exists.")]).
Proof.
  intros Hlist Hin. unfold createPineconeIndex.
  rewrite run_emit_bind, (run_call_bind_ok _ _ _ _ existing) by done.
  by rewrite bool_decide_eq_true_2.
Qed.

(** The index is not listed: the creation request is sent. *)
Lemma createPineconeIndex_absent indexName dim w existing :
  (pinecone_listIndexes w).1 = Ok existing ->
  indexName ∉ existing ->
  let createRequest := mkCreateRequest indexName dim "cosine" in
  let w1 := (pinecone_listIndexes w).2 in
  createPineconeIndex timeout indexName dim w
  = match (pinecone_createIndex createRequest w1).1 with
    | Ok _ =>
        (Ok tt, elapse timeout (pinecone_createIndex createRequest w1).2,
         [ConsoleLog ("Checking " +:+ quoted indexName +:+ "...");
          ListIndexes;
          ConsoleLog ("Creating " +:+ quoted indexName +:+ "...");
          CreateIndex createRequest;
          ConsoleLog
            "Creating index... please wait for it to finish initializing.";
          SetTimeout timeout])
    | Err e =>
        (Err e, (pinecone_createIndex createRequest w1).2,
         [ConsoleLog ("Checking " +:+ quoted indexName +:+ "...");
          ListIndexes;
          ConsoleLog ("Creating " +:+ quoted indexName +:+ "...");
          CreateIndex createRequest])
    end.
Proof.
  intros Hlist Hnotin. unfold createPineconeIndex. simpl.
  rewrite run_emit_bind, (run_call_bind_ok _ _ _ _ existing) by done.
  rewrite bool_decide_eq_false_2 by done. simpl.
  rewrite run_emit_bind.
  destruct (pinecone_createIndex (mkCreateRequest indexName dim "cosine")
              (pinecone_listIndexes w).2).1 as [[]|e] eqn:Hcreate.
  - rewrite (run_call_bind_ok _ _ _ _ tt) by done.
    by rewrite run_emit_bind.
  - by rewrite (run_call_bind_err _ _ _ _ e) by done.
Qed.

(** C5.  Whatever list of indexes the service answers with:
    [createPineconeIndex] sends a creation request if and only if the name
    is not in that list; the request carries the name, the given dimension
    and the metric cosine, and when it is accepted the wait of [timeout]
    follows it.  Consequently, when the name is absent at first, the
    creation is accepted, and the service lists the name from then on, two
    calls in sequence send exactly one creation request: the second call
    sends none. *)
Theorem createPineconeIndex_creates_iff_absent indexName dim w existing :
  (pinecone_listIndexes w).1 = Ok existing ->
  let createRequest := mkCreateRequest indexName dim "cosine" in
  let w1 := (pinecone_listIndexes w).2 in
  let once := createPineconeIndex timeout indexName dim in
  (creation_requests (trace (once w)) = [createRequest] <-> indexName ∉ existing)
  /\ (creation_requests (trace (once w)) = [] <-> indexName ∈ existing)
  /\ (indexName ∉ existing ->
      (pinecone_createIndex createRequest w1).1 = Ok tt ->
      outcome (once w) = Ok tt
      /\ world (once w) = elapse timeout (pinecone_createIndex createRequest w1).2
      /\ trace (once w)
         = [ConsoleLog ("Checking " +:+ quoted indexName +:+ "...");
            ListIndexes;
            ConsoleLog ("Creating " +:+ quoted indexName +:+ "...");
            CreateIndex createRequest;
            ConsoleLog
              "Creating index... please wait for it to finish initializing.";
            SetTimeout timeout])
  /\ (indexName ∉ existing ->
      (pinecone_createIndex createRequest w1).1 = Ok tt ->
      forall existing',
        (pinecone_listIndexes (world (once w))).1 = Ok existing' ->
        indexName ∈ existing' ->
        outcome ((once;; once) w) = Ok tt
        /\ creation_requests (trace ((once;; once) w)) = [createRequest]
        /\ creation_requests (trace (once (world (once w)))) = []).
Proof.
  intros Hlist createRequest w1 once.
  assert (indexName ∈ existing ->
          creation_requests (trace (once w)) = []) as Hpresent.
  { intros Hin. unfold once.
    by rewrite (createPineconeIndex_present _ _ _ _ Hlist Hin). }
  assert (indexName ∉ existing ->
          creation_requests (trace (once w)) = [createRequest]) as Habsent.
  { intros Hnotin. unfold once.
    rewrite (createPineconeIndex_absent _ _ _ _ Hlist Hnotin).
    by destruct (pinecone_createIndex _ _).1. }
  assert (indexName ∉ existing ->
          (pinecone_createIndex createRequest w1).1 = Ok tt ->
          once w
          = (Ok tt, elapse timeout (pinecone_createIndex createRequest w1).2,
             [ConsoleLog ("Checking " +:+ quoted indexName +:+ "...");
              ListIndexes;
              ConsoleLog ("Creating " +:+ quoted indexName +:+ "...");
              CreateIndex createRequest;
              ConsoleLog
                "Creating index... please wait for it to finish initializing.";
              SetTimeout timeout])) as Hcreated.
  { intros Hnotin Hcreate. unfold once.
    rewrite (createPineconeIndex_absent _ _ _ _ Hlist Hnotin).
    fold createRequest w1. by rewrite Hcreate. }
  split_and!.
  - split; [|done]. intros Hreq.
    destruct (decide (indexName ∈ existing)) as [Hin|]; [|done].
    by rewrite (Hpresent Hin) in Hreq.
  - split; [|done]. intros Hreq.
    destruct (decide (indexName ∈ existing)) as [|Hnotin]; [done|].
    by rewrite (Habsent Hnotin) in Hreq.
  - intros Hnotin Hcreate. by rewrite (Hcreated Hnotin Hcreate).
  - intros Hnotin Hcreate existing' Hlist' Hin'.
    assert (outcome (once w) = Ok tt) as Hout
      by (by rewrite (Hcreated Hnotin Hcreate)).
    destruct (bind_ok once (fun _ => once) w tt Hout) as (-> & _ & ->).
    pose proof (createPineconeIndex_present indexName dim _ _ Hlist' Hin')
      as Hsecond.
    fold once in Hsecond. rewrite Hsecond.
    unfold creation_requests at 1. rewrite omap_app.
    fold (creation_requests (trace (once w))).
    by rewrite (Habsent Hnotin).
Qed.

End provisioning.

Lemma createPineconeIndex_creates_iff_absent_witness :
  outcome ((createPineconeIndex 60000%Z "idx" 1536%Z;;
            createPineconeIndex 60000%Z "idx" 1536%Z) Reference.empty)
  = Ok tt
  /\ creation_requests
       (trace ((createPineconeIndex 60000%Z "idx" 1536%Z;;
                createPineconeIndex 60000%Z "idx" 1536%Z) Reference.empty))
     = [mkCreateRequest "idx" 1536%Z "cosine"]
  /\ creation_requests
       (trace (createPineconeIndex 60000%Z "idx" 1536%Z
                 (world (createPineconeIndex 60000%Z "idx" 1536%Z
                           Reference.empty))))
     = [].
Proof.
  edestruct (createPineconeIndex_creates_iff_absent 60000%Z "idx" 1536%Z
               Reference.empty) as (_ & _ & _ & Htwice).
  - reflexivity.
  - eapply Htwice.
    + by apply not_elem_of_nil.
    + reflexivity.
    + reflexivity.
    + by apply list_elem_of_here.
Defined.

(** ** The entry point *)

Section entry_point.
Context {number W : Type}.
Context `{!JSRuntime number, !PineconeClient number W, !LangChain number W}.
Variable indexName : string.
Variables PINECONE_API_KEY PINECONE_ENVIRONMENT : option string.
Implicit Types (w : W).

(** The pipeline returns a string or undefined, nothing else. *)
Lemma query_returns_text_or_undefined question w v :
  outcome (queryPineconeVectorStoreAndQueryLLM indexName question w) = Ok v ->
  v = JUndefined \/ exists answer, v = JString answer.
Proof.
  unfold queryPineconeVectorStoreAndQueryLLM, outcome.
  rewrite run_emit_bind. simpl.
  destruct (OpenAIEmbeddings_embedQuery question w).1 as [qe|e] eqn:Hqe.
  2:{ by rewrite (run_call_bind_err _ _ _ _ e) by done. }
  rewrite (run_call_bind_ok _ _ _ _ qe) by done. simpl.
  match goal with
  | |- context [(call _ (pinecone_query ?i ?q) ≫= _) ?w'] =>
      destruct (pinecone_query i q w').1 as [resp|e] eqn:Hresp
  end.
  2:{ by rewrite (run_call_bind_err _ _ _ _ e) by done. }
  rewrite (run_call_bind_ok _ _ _ _ resp) by done. simpl.
  rewrite !run_emit_bind. simpl.
  destruct (matches resp) as [[|m ms]|].
  - rewrite ?run_emit_bind. simpl. intros [= <-]. by left.
  - match goal with
    | |- context [(call _ (loadQAStuffChain_call ?d ?q) ≫= _) ?w'] =>
        destruct (loadQAStuffChain_call d q w').1 as [result|e] eqn:Hchain
    end.
    + rewrite (run_call_bind_ok _ _ _ _ result) by done. simpl.
      rewrite ?run_emit_bind. simpl. intros [= <-]. right. by eexists.
    + by rewrite (run_call_bind_err _ _ _ _ e) by done.
  - rewrite ?run_emit_bind. simpl. intros [= <-]. by left.
Qed.

(** C8, amended.  Once the client is initialised, the handler answers
    with what the pipeline returned under [data]: the body is
    [{data: answer text}] when the pipeline produces an answer, and the
    empty object, in which [data] is absent (it reads back as undefined,
    not as null), when the pipeline returns nothing; the pipeline returns
    nothing else. *)
Theorem POST_body question w :
  (pinecone_init PINECONE_API_KEY PINECONE_ENVIRONMENT w).1 = Ok tt ->
  let w1 := (pinecone_init PINECONE_API_KEY PINECONE_ENVIRONMENT w).2 in
  let pipeline := queryPineconeVectorStoreAndQueryLLM indexName question w1 in
  let response :=
    POST indexName PINECONE_API_KEY PINECONE_ENVIRONMENT question w in
  (forall answer,
      outcome pipeline = Ok (JString answer) ->
      outcome response
      = Ok {| status := 200;
              body := Some (JsObject [("data", JsString answer)]) |})
  /\ (outcome pipeline = Ok JUndefined ->
      outcome response = Ok {| status := 200; body := Some (JsObject []) |}
      /\ json_get "data" (JsObject [] : Json number) = None)
  /\ (forall v,
        outcome pipeline = Ok v ->
        v = JUndefined \/ exists answer, v = JString answer).
Proof.
  intros Hinit w1 pipeline response.
  assert (forall v, outcome pipeline = Ok v ->
                    outcome response = Ok (NextResponse_json
                                             (JObject [("data", v)])))
    as Hresp.
  { intros v Hv. unfold response, POST, outcome.
    rewrite (run_call_bind_ok _ _ _ _ tt) by done. simpl.
    fold w1.
    destruct (bind_ok (queryPineconeVectorStoreAndQueryLLM indexName question)
                (fun text => mret (NextResponse_json (JObject [("data", text)])))
                w1 v Hv) as (Hout & _ & _).
    exact Hout. }
  split_and!.
  - intros answer Hv. by rewrite (Hresp _ Hv).
  - intros Hv. by rewrite (Hresp _ Hv).
  - apply query_returns_text_or_undefined.
Qed.

End entry_point.

Lemma POST_body_witness :
  outcome (POST "idx" None None "q" Reference.ingested)
  = Ok {| status := 200;
          body := Some (JsObject [("data", JsString "q, trả lời bằng thơ nhé")])
       |}.
Proof.
  edestruct (POST_body "idx" None None "q" Reference.ingested) as (Hanswer & _).
  - reflexivity.
  - apply Hanswer. reflexivity.
Defined.

(** With no match in the index the pipeline produces no answer, and the
    body of the response is the empty object, not [{data: null}]. *)
Lemma POST_without_answer_has_no_data :
  outcome (queryPineconeVectorStoreAndQueryLLM "idx" "q" Reference.empty)
  = Ok JUndefined
  /\ outcome (POST "idx" None None "q" Reference.empty)
     = Ok {| status := 200; body := Some (JsObject []) |}
  /\ outcome (POST "idx" None None "q" Reference.empty)
     ≠ Ok {| status := 200; body := Some (JsObject [("data", JsNull)]) |}.
Proof. split_and!; [reflexivity|reflexivity|]. vm_compute. discriminate. Qed.

(** ** The embedding clients *)

Section embedding_clients.
Context {number W : Type} `{!Axios number W}.
Variable LLAMA_SERVICE_ORIGIN : option string.
Implicit Types (w : W) (texts batch : list string).
Implicit Types (batches : list (list string)).
Implicit Types (this : LlamaBatched.LlamaEmbeddings).
Implicit Types (embed : string -> list number).

Local Abbreviation url := (embeddings_url LLAMA_SERVICE_ORIGIN).
Local Abbreviation batch_requests := (batch_requests LLAMA_SERVICE_ORIGIN).

(** Every request of [Promise.all] is sent, whatever the answers. *)
Lemma Promise_all_trace batches w :
  trace (Promise_all (batch_requests batches) w)
  = (fun batch => AxiosPost url (InputArray batch)) <$> batches.
Proof.
  unfold trace. revert w.
  induction batches as [|batch batches IH]; intros w; [done|].
  cbn [batch_requests fmap list_fmap Promise_all].
  unfold LlamaBatched.embeddingWithRetry at 1. rewrite run_call.
  specialize (IH (axios_post url (InputArray batch) w).2).
  unfold batch_requests in IH. fold url.
  destruct (Promise_all _ _) as [[rs w2] t2]. simpl in *. by rewrite IH.
Qed.

Lemma Promise_all_answers embed batches w :
  (forall l w, (axios_post url (InputArray l) w).1 = Ok (answer embed l)) ->
  outcome (Promise_all (batch_requests batches) w)
  = Ok (answer embed <$> batches).
Proof.
  intros Hservice. unfold outcome. revert w.
  induction batches as [|batch batches IH]; intros w; [done|].
  cbn [batch_requests fmap list_fmap Promise_all].
  unfold LlamaBatched.embeddingWithRetry at 1. rewrite run_call.
  specialize (IH (axios_post url (InputArray batch) w).2).
  unfold batch_requests in IH. fold url. rewrite Hservice.
  destruct (Promise_all _ _) as [[rs w2] t2]. simpl in *. by rewrite IH.
Qed.

(** Reassembling never calls out. *)
Lemma push_batch_trace (response : EmbeddingResponse number) j rest acc w :
  trace (LlamaBatched.push_batch response j rest acc w) = []
  /\ world (LlamaBatched.push_batch response j rest acc w) = w.
Proof.
  revert j acc. induction rest as [|t rest IH]; intros j acc; [done|].
  simpl. destruct (data response !! j); [apply IH|done].
Qed.

Lemma push_batches_trace batches
    (responses : list (EmbeddingResponse number)) acc w :
  trace (LlamaBatched.push_batches batches responses acc w) = [].
Proof.
  revert batches acc.
  induction responses as [|response responses IH]; intros batches acc; [done|].
  destruct batches as [|batch batches]; [done|]. simpl.
  destruct (push_batch_trace response 0 batch acc w) as [Ht Hw].
  unfold trace, world, mbind, M_bind in *.
  destruct (LlamaBatched.push_batch response 0 batch acc w)
    as [[[acc'|e] w1] t1]; simpl in *; subst; [|done].
  specialize (IH batches acc').
  by destruct (LlamaBatched.push_batches _ _ _ _) as [[r w2] t2]; simpl in *;
    subst.
Qed.

(** Reassembling the answers of a service that embeds by [embed]. *)
Lemma push_batch_answer embed pre rest acc w :
  LlamaBatched.push_batch (answer embed (pre ++ rest)) (length pre) rest acc w
  = (Ok (acc ++ (embed <$> rest)), w, []).
Proof.
  revert pre acc. induction rest as [|t rest IH]; intros pre acc.
  - simpl. by rewrite app_nil_r.
  - cbn [LlamaBatched.push_batch answer data].
    rewrite list_lookup_fmap, lookup_app_r, Nat.sub_diag by done. simpl.
    specialize (IH (pre ++ [t]) (acc ++ [embed t])).
    rewrite length_app, <- (assoc_L (++)) in IH. simpl in IH.
    rewrite Nat.add_1_r in IH. rewrite IH.
    by rewrite <- (assoc_L (++)).
Qed.

Lemma push_batches_answer embed batches acc w :
  LlamaBatched.push_batches batches (answer embed <$> batches) acc w
  = (Ok (acc ++ (embed <$> concat batches)), w, []).
Proof.
  revert acc. induction batches as [|batch batches IH]; intros acc.
  - simpl. by rewrite app_nil_r.
  - cbn [fmap list_fmap LlamaBatched.push_batches concat].
    erewrite run_bind_ok; [|apply (push_batch_answer embed [] batch)].
    rewrite IH. simpl. by rewrite fmap_app, (assoc_L (++)).
Qed.

(** The run of the batching [embedDocuments] against such a service. *)
Lemma embedDocuments_run embed this texts w :
  (forall l w, (axios_post url (InputArray l) w).1 = Ok (answer embed l)) ->
  let batches := chunkArray (prepared this texts) (LlamaBatched.batchSize this) in
  outcome (LlamaBatched.embedDocuments LLAMA_SERVICE_ORIGIN this texts w)
  = Ok (embed <$> concat batches)
  /\ trace (LlamaBatched.embedDocuments LLAMA_SERVICE_ORIGIN this texts w)
     = (fun batch => AxiosPost url (InputArray batch)) <$> batches.
Proof.
  intros Hservice batches. unfold LlamaBatched.embedDocuments.
  fold (prepared this texts). fold batches. fold (batch_requests batches).
  pose proof (Promise_all_answers embed batches w Hservice) as Hall.
  destruct (bind_ok (Promise_all (batch_requests batches))
              (fun batchResponses =>
                 LlamaBatched.push_batches batches batchResponses [])
              w _ Hall) as (-> & _ & ->).
  rewrite Promise_all_trace, push_batches_answer.
  unfold outcome, trace. simpl. by rewrite app_nil_r.
Qed.

(** What the batching [embedDocuments] sends does not depend on the
    answers. *)
Lemma embedDocuments_trace this texts w :
  trace (LlamaBatched.embedDocuments LLAMA_SERVICE_ORIGIN this texts w)
  = (fun batch => AxiosPost url (InputArray batch))
    <$> chunkArray (prepared this texts) (LlamaBatched.batchSize this).
Proof.
  unfold LlamaBatched.embedDocuments. fold (prepared this texts).
  set (batches := chunkArray (prepared this texts) (LlamaBatched.batchSize this)).
  fold (batch_requests batches).
  destruct (outcome (Promise_all (batch_requests batches) w))
    as [responses|e] eqn:Hall.
  - destruct (bind_ok (Promise_all (batch_requests batches))
                (fun batchResponses =>
                   LlamaBatched.push_batches batches batchResponses [])
                w _ Hall) as (_ & _ & ->).
    by rewrite Promise_all_trace, push_batches_trace, app_nil_r.
  - destruct (bind_err (Promise_all (batch_requests batches))
                (fun batchResponses =>
                   LlamaBatched.push_batches batches batchResponses [])
                w _ Hall) as (_ & _ & ->).
    apply Promise_all_trace.
Qed.

(** Stripping leaves no newline, keeps the length, and changes a byte
    only from a newline to a space. *)
Lemma replace_newlines_no_newline s : has_newline (replace_newlines s) = false.
Proof.
  induction s as [|c s IH]; [done|]. simpl.
  by destruct (Ascii.eqb c newline) eqn:Hc; simpl; rewrite ?Hc.
Qed.

Lemma replace_newlines_length s :
  String.length (replace_newlines s) = String.length s.
Proof. induction s as [|c s IH]; [done|]. simpl. by rewrite IH. Qed.

Lemma replace_newlines_get s i c :
  String.get i s = Some c ->
  String.get i (replace_newlines s)
  = Some (if Ascii.eqb c newline then space else c).
Proof.
  revert i. induction s as [|c' s IH]; intros i; [done|].
  destruct i as [|i]; simpl; [by intros [= ->]|apply IH].
Qed.

(** C4, amended.  Against a service that answers a request for a list of
    texts with one embedding per text, in order, and for a configured batch
    size of at least one: [embedDocuments] cuts the (possibly newline-stripped) texts
    into consecutive batches, none empty, none above the batch size,
    ceil(N / batch size) of them for N texts (one batch for N equal to the
    batch size, two for one more); it sends one request per batch, in
    order, and nothing else; and it returns one vector per text, the i-th
    being the embedding of the i-th text as sent. *)
Theorem embedDocuments_aligned embed this texts w :
  0 < LlamaBatched.batchSize this ->
  (forall l w, (axios_post url (InputArray l) w).1 = Ok (answer embed l)) ->
  exists batches vectors,
    concat batches = prepared this texts
    /\ Forall (fun batch => 0 < length batch ≤ LlamaBatched.batchSize this)
         batches
    /\ length batches
       = (length texts + LlamaBatched.batchSize this - 1)
         / LlamaBatched.batchSize this
    /\ trace (LlamaBatched.embedDocuments LLAMA_SERVICE_ORIGIN this texts w)
       = (fun batch => AxiosPost url (InputArray batch)) <$> batches
    /\ outcome (LlamaBatched.embedDocuments LLAMA_SERVICE_ORIGIN this texts w)
       = Ok vectors
    /\ length vectors = length texts
    /\ forall i t,
         prepared this texts !! i = Some t -> vectors !! i = Some (embed t).
Proof.
  intros Hsize Hservice.
  destruct (embedDocuments_run embed this texts w Hservice) as [Hout Htrace].
  assert (length (prepared this texts) = length texts) as Hlen
    by (unfold prepared; destruct (LlamaBatched.stripNewLines this);
        by rewrite ?length_fmap).
  exists (chunkArray (prepared this texts) (LlamaBatched.batchSize this)),
    (embed <$> prepared this texts).
  unfold chunkArray in *. rewrite concat_slices in Hout by done.
  split_and!; [by apply concat_slices|apply Forall_slices| |done|done| |].
  - by rewrite length_slices, Hlen by done.
  - by rewrite length_fmap.
  - intros i t Hi. by rewrite list_lookup_fmap, Hi.
Qed.

(** C7.  What the batching client sends, whatever the service answers:
    [embedQuery] sends the text with every newline replaced by a space
    when [stripNewLines] is set and the text itself otherwise;
    [embedDocuments] hands the texts so prepared to [chunkArray] and sends
    the batches it gets, which taken together are those texts when the
    batch size is at least one.  [stripNewLines] is set unless the
    constructor is told otherwise.  Stripping leaves no newline, keeps the
    length and changes no other byte. *)
Theorem newlines_stripped_before_sending this text texts w :
  trace (LlamaBatched.embedQuery LLAMA_SERVICE_ORIGIN this text w)
  = [AxiosPost url
       (InputString
          (if LlamaBatched.stripNewLines this
           then replace_newlines text else text))]
  /\ trace (LlamaBatched.embedDocuments LLAMA_SERVICE_ORIGIN this texts w)
     = (fun batch => AxiosPost url (InputArray batch))
       <$> chunkArray
             (if LlamaBatched.stripNewLines this
              then replace_newlines <$> texts else texts)
             (LlamaBatched.batchSize this)
  /\ (0 < LlamaBatched.batchSize this ->
      concat
        (chunkArray
           (if LlamaBatched.stripNewLines this
            then replace_newlines <$> texts else texts)
           (LlamaBatched.batchSize this))
      = if LlamaBatched.stripNewLines this
        then replace_newlines <$> texts else texts)
  /\ LlamaBatched.stripNewLines (LlamaBatched.constructor None) = true
  /\ (forall fields,
        LlamaBatched.stripNewLines (LlamaBatched.constructor (Some fields))
        = default true (LlamaBatched.params_stripNewLines fields))
  /\ (forall s,
        has_newline (replace_newlines s) = false
        /\ String.length (replace_newlines s) = String.length s
        /\ forall i c,
             String.get i s = Some c ->
             String.get i (replace_newlines s)
             = Some (if Ascii.eqb c newline then space else c)).
Proof.
  split_and!.
  - unfold LlamaBatched.embedQuery, LlamaBatched.embeddingWithRetry.
    fold url. unfold trace, mbind, M_bind. rewrite run_call.
    destruct (axios_post _ _ _).1 as [response|e]; simpl; [|done].
    by destruct (data response !! 0).
  - apply embedDocuments_trace.
  - intros Hsize. by apply concat_slices.
  - done.
  - done.
  - intros s. split_and!.
    + apply replace_newlines_no_newline.
    + apply replace_newlines_length.
    + apply replace_newlines_get.
Qed.

Lemma replace_newlines_all_id texts :
  Forall (fun t => has_newline t = false) texts ->
  replace_newlines <$> texts = texts.
Proof.
  induction 1 as [|t texts' Ht _ IH]; [done|].
  by rewrite fmap_cons, IH, replace_newlines_id.
Qed.

(** The sequential client against a service that answers every text with
    its embedding. *)
Lemma embedDocuments_loop_answer embed documents acc w :
  (forall s w, (axios_post url (InputString s) w).1 = Ok (answer embed [s])) ->
  outcome (LlamaSequential.embedDocuments_loop LLAMA_SERVICE_ORIGIN
             documents acc w)
  = Ok (acc ++ (embed <$> documents)).
Proof.
  intros Hservice. unfold outcome. revert acc w.
  induction documents as [|document documents IH]; intros acc w.
  - simpl. by rewrite app_nil_r.
  - cbn [LlamaSequential.embedDocuments_loop].
    unfold LlamaSequential.embedWithRetry. fold url.
    rewrite (run_call_bind_ok _ _ _ _ (answer embed [document]))
      by apply Hservice.
    simpl. rewrite IH. by rewrite <- (assoc_L (++)).
Qed.

Lemma batched_embedQuery_answer embed this text w :
  (forall s w, (axios_post url (InputString s) w).1 = Ok (answer embed [s])) ->
  outcome (LlamaBatched.embedQuery LLAMA_SERVICE_ORIGIN this text w)
  = Ok (embed (if LlamaBatched.stripNewLines this
               then replace_newlines text else text)).
Proof.
  intros Hservice.
  unfold LlamaBatched.embedQuery, LlamaBatched.embeddingWithRetry, outcome.
  fold url.
  erewrite run_call_bind_ok by apply Hservice. done.
Qed.

Lemma sequential_embedQuery_answer embed text w :
  (forall s w, (axios_post url (InputString s) w).1 = Ok (answer embed [s])) ->
  outcome (LlamaSequential.embedQuery LLAMA_SERVICE_ORIGIN text w)
  = Ok (embed text).
Proof.
  intros Hservice.
  unfold LlamaSequential.embedQuery, LlamaSequential.embedWithRetry, outcome.
  fold url.
  erewrite run_call_bind_ok by apply Hservice. done.
Qed.

(** C9, amended.  Against a service that answers every text with the
    same embedding [embed] of it, alone or in a list, and for a batch size
    of at least one: the batching client returns on any texts what the
    sequential client returns on the texts as the batching client prepares
    them.  The two clients therefore return the same vectors when
    [stripNewLines] is off or no text has a newline, for [embedDocuments]
    and for [embedQuery] alike. *)
Theorem clients_agree_without_stripping embed this texts text w w' :
  0 < LlamaBatched.batchSize this ->
  (forall l w, (axios_post url (InputArray l) w).1 = Ok (answer embed l)) ->
  (forall s w, (axios_post url (InputString s) w).1 = Ok (answer embed [s])) ->
  outcome (LlamaBatched.embedDocuments LLAMA_SERVICE_ORIGIN this texts w)
  = outcome (LlamaSequential.embedDocuments LLAMA_SERVICE_ORIGIN
               (prepared this texts) w')
  /\ (LlamaBatched.stripNewLines this = false
      \/ Forall (fun t => has_newline t = false) texts ->
      outcome (LlamaBatched.embedDocuments LLAMA_SERVICE_ORIGIN this texts w)
      = outcome (LlamaSequential.embedDocuments LLAMA_SERVICE_ORIGIN texts w')
      /\ outcome (LlamaSequential.embedDocuments LLAMA_SERVICE_ORIGIN texts w')
         = Ok (embed <$> texts))
  /\ (LlamaBatched.stripNewLines this = false \/ has_newline text = false ->
      outcome (LlamaBatched.embedQuery LLAMA_SERVICE_ORIGIN this text w)
      = outcome (LlamaSequential.embedQuery LLAMA_SERVICE_ORIGIN text w')
      /\ outcome (LlamaSequential.embedQuery LLAMA_SERVICE_ORIGIN text w')
         = Ok (embed text)).
Proof.
  intros Hsize Harray Hstring.
  destruct (embedDocuments_run embed this texts w Harray) as [Hbatched _].
  unfold chunkArray in Hbatched. rewrite concat_slices in Hbatched by done.
  unfold LlamaSequential.embedDocuments.
  rewrite !(embedDocuments_loop_answer embed) by done. simpl.
  rewrite Hbatched, (batched_embedQuery_answer embed),
    (sequential_embedQuery_answer embed) by done.
  split_and!; [done| |].
  - intros Hsame. split; [|done]. do 2 f_equal.
    unfold prepared. destruct Hsame as [-> | Hclean]; [done|].
    destruct (LlamaBatched.stripNewLines this); [|done].
    by apply replace_newlines_all_id.
  - intros Hsame. split; [|done]. do 2 f_equal.
    destruct Hsame as [-> | Hclean]; [done|].
    destruct (LlamaBatched.stripNewLines this); [|done].
    by apply replace_newlines_id.
Qed.

End embedding_clients.

Lemma embedDocuments_aligned_witness :
  exists batches vectors,
    concat batches = prepared Reference.pairs ["a"; "b"; "c"]
    /\ Forall (fun batch => 0 < length batch ≤ 2) batches
    /\ length batches = (3 + 2 - 1) / 2
    /\ trace (LlamaBatched.embedDocuments None Reference.pairs ["a"; "b"; "c"]
                Reference.empty)
       = (fun batch => AxiosPost (embeddings_url None) (InputArray batch)) <$> batches
    /\ outcome (LlamaBatched.embedDocuments None Reference.pairs
                  ["a"; "b"; "c"] Reference.empty)
       = Ok vectors
    /\ length vectors = 3
    /\ forall i t,
         prepared Reference.pairs ["a"; "b"; "c"] !! i = Some t ->
         vectors !! i = Some (Reference.embed t).
Proof.
  apply (embedDocuments_aligned None Reference.embed Reference.pairs
           ["a"; "b"; "c"] Reference.empty).
  - simpl. lia.
  - intros l w. reflexivity.
Defined.

(** With a configured batch size of zero, which the constructor keeps, no
    batch is made: for three texts no request is sent and no vector is
    returned, although the service answers every request with one embedding
    per text. *)
Lemma embedDocuments_with_batch_size_zero :
  LlamaBatched.batchSize
    (LlamaBatched.constructor (Some (LlamaBatched.mkParams (Some 0) None)))
  = 0
  /\ (forall l w,
        (axios_post (embeddings_url None) (InputArray l) w).1
        = Ok (answer Reference.embed l))
  /\ trace (LlamaBatched.embedDocuments None
              (LlamaBatched.constructor
                 (Some (LlamaBatched.mkParams (Some 0) None)))
              ["a"; "b"; "c"] Reference.empty)
     = []
  /\ outcome (LlamaBatched.embedDocuments None
                (LlamaBatched.constructor
                   (Some (LlamaBatched.mkParams (Some 0) None)))
                ["a"; "b"; "c"] Reference.empty)
     = Ok []
  /\ outcome (LlamaBatched.embedDocuments None
                (LlamaBatched.constructor
                   (Some (LlamaBatched.mkParams (Some 0) None)))
                ["a"; "b"; "c"] Reference.empty)
     ≠ Ok (Reference.embed <$> ["a"; "b"; "c"]).
Proof.
  split_and!; [reflexivity|done|reflexivity|reflexivity|].
  vm_compute. discriminate.
Qed.

(** Exactly one batch size of texts goes out in one request, one more in
    two. *)
Example embedDocuments_at_batch_size :
  posted_inputs
    (trace (LlamaBatched.embedDocuments None Reference.pairs ["a"; "b"]
              Reference.empty))
  = [InputArray ["a"; "b"]]
  /\ outcome (LlamaBatched.embedDocuments None Reference.pairs ["a"; "b"]
               Reference.empty)
     = Ok [[97%Z]; [98%Z]].
Proof. split; reflexivity. Qed.

Example embedDocuments_past_batch_size :
  posted_inputs
    (trace (LlamaBatched.embedDocuments None Reference.pairs ["a"; "b"; "c"]
              Reference.empty))
  = [InputArray ["a"; "b"]; InputArray ["c"]]
  /\ outcome (LlamaBatched.embedDocuments None Reference.pairs
               ["a"; "b"; "c"] Reference.empty)
     = Ok [[97%Z]; [98%Z]; [99%Z]].
Proof. split; reflexivity. Qed.

Example embedDocuments_of_nothing :
  trace (LlamaBatched.embedDocuments None Reference.pairs [] Reference.empty)
  = []
  /\ outcome (LlamaBatched.embedDocuments None Reference.pairs []
               Reference.empty)
     = Ok [].
Proof. split; reflexivity. Qed.

Lemma newlines_stripped_before_sending_witness :
  trace (LlamaBatched.embedQuery None (LlamaBatched.constructor None)
           Reference.two_lines Reference.empty)
  = [AxiosPost "undefined/v1/embeddings" (InputString "a b")]
  /\ concat (chunkArray (replace_newlines <$> [Reference.two_lines; "c"]) 512)
     = ["a b"; "c"].
Proof.
  destruct (newlines_stripped_before_sending None
              (LlamaBatched.constructor None) Reference.two_lines
              [Reference.two_lines; "c"] Reference.empty)
    as (Hquery & _ & Hconcat & _).
  split; [exact Hquery|]. apply Hconcat. simpl. lia.
Defined.

Lemma clients_agree_without_stripping_witness :
  outcome (LlamaBatched.embedDocuments None (LlamaBatched.constructor None)
             ["a"; "b"] Reference.empty)
  = outcome (LlamaSequential.embedDocuments None ["a"; "b"] Reference.empty)
  /\ outcome (LlamaSequential.embedDocuments None ["a"; "b"] Reference.empty)
     = Ok (Reference.embed <$> ["a"; "b"]).
Proof.
  edestruct (clients_agree_without_stripping None Reference.embed
               (LlamaBatched.constructor None) ["a"; "b"] "q"
               Reference.empty Reference.empty) as (_ & Hsame & _).
  - simpl. lia.
  - intros l w. reflexivity.
  - intros s w. reflexivity.
  - apply Hsame. right. repeat constructor.
Defined.

(** With the default settings and a text of two lines the two clients
    return different vectors, although the service answers every text
    with the same embedding of it. *)
Lemma clients_differ_on_a_newline :
  (forall l w,
      (axios_post (embeddings_url None) (InputArray l) w).1
      = Ok (answer Reference.embed l))
  /\ (forall s w,
        (axios_post (embeddings_url None) (InputString s) w).1
        = Ok (answer Reference.embed [s]))
  /\ outcome (LlamaBatched.embedDocuments None (LlamaBatched.constructor None)
               [Reference.two_lines] Reference.empty)
     ≠ outcome (LlamaSequential.embedDocuments None [Reference.two_lines]
                  Reference.empty)
  /\ outcome (LlamaBatched.embedQuery None (LlamaBatched.constructor None)
               Reference.two_lines Reference.empty)
     ≠ outcome (LlamaSequential.embedQuery None Reference.two_lines
                  Reference.empty).
Proof.
  split_and!; [done|done| |]; vm_compute; discriminate.
Qed.

(** * Further properties *)

(** ** Index provisioning: failures and bounds *)

Section provisioning_failures.
Context {number W : Type} `{!PineconeClient number W}.
Variable timeout : number.
Implicit Types (w : W) (existing : list string).

(** X1.  A rejected call ends [createPineconeIndex] with the same
    rejection.  When the list of indexes cannot be read, no creation
    request is sent and nothing is waited for; when the creation request is
    rejected, it is the only one sent and the wait does not take place. *)
Theorem createPineconeIndex_rejections indexName dim w :
  (forall e,
      (pinecone_listIndexes w).1 = Err e ->
      outcome (createPineconeIndex timeout indexName dim w) = Err e
      /\ creation_requests (trace (createPineconeIndex timeout indexName dim w))
         = []
      /\ waits (trace (createPineconeIndex timeout indexName dim w)) = [])
  /\ (forall existing e,
        (pinecone_listIndexes w).1 = Ok existing ->
        indexName ∉ existing ->
        (pinecone_createIndex (mkCreateRequest indexName dim "cosine")
           (pinecone_listIndexes w).2).1 = Err e ->
        outcome (createPineconeIndex timeout indexName dim w) = Err e
        /\ creation_requests
             (trace (createPineconeIndex timeout indexName dim w))
           = [mkCreateRequest indexName dim "cosine"]
        /\ waits (trace (createPineconeIndex timeout indexName dim w)) = []).
Proof.
  split.
  - intros e Hlist. unfold createPineconeIndex.
    rewrite run_emit_bind, (run_call_bind_err _ _ _ _ e) by done. done.
  - intros existing e Hlist Hnotin Hcreate.
    rewrite (createPineconeIndex_absent timeout _ _ _ _ Hlist Hnotin).
    by rewrite Hcreate.
Qed.

(** X2.  Whatever the service does, one call of [createPineconeIndex]
    sends at most one creation request, for the given name and dimension
    with the metric cosine, and waits at most once; it waits exactly when
    it sent a creation request and ended well, and it ends well only if the
    list of indexes was read. *)
Theorem createPineconeIndex_at_most_one_creation indexName dim w :
  let t := trace (createPineconeIndex timeout indexName dim w) in
  let r := outcome (createPineconeIndex timeout indexName dim w) in
  (creation_requests t = []
   \/ creation_requests t = [mkCreateRequest indexName dim "cosine"])
  /\ (waits t = [timeout]
      <-> r = Ok tt
          /\ creation_requests t = [mkCreateRequest indexName dim "cosine"])
  /\ (waits t = [] \/ waits t = [timeout])
  /\ (r = Ok tt -> exists existing, (pinecone_listIndexes w).1 = Ok existing).
Proof.
  intros t r. subst t r.
  destruct (pinecone_listIndexes w).1 as [existing|e] eqn:Hlist.
  - destruct (decide (indexName ∈ existing)) as [Hin|Hnotin].
    + rewrite (createPineconeIndex_present timeout _ _ _ _ Hlist Hin).
      unfold outcome, trace. simpl. split_and!; [by left| |by left|by eexists].
      split; [done|]. by intros [_ ?].
    + rewrite (createPineconeIndex_absent timeout _ _ _ _ Hlist Hnotin).
      destruct (pinecone_createIndex _ _).1 as [[]|e];
        unfold outcome, trace; simpl.
      * split_and!; [by right|done|by right|by eexists].
      * split_and!; [by right| |by left|done].
        split; [done|]. by intros [? _].
  - unfold createPineconeIndex.
    rewrite run_emit_bind, (run_call_bind_err _ _ _ _ e) by done.
    unfold outcome, trace. simpl. split_and!; [by left| |by left|done].
    split; [done|]. by intros [? _].
Qed.

End provisioning_failures.

(** ** Ingestion: failures, empty documents, what a record carries *)

Section ingestion_failures.
Context {number W : Type}.
Context `{!JSRuntime number, !PineconeClient number W, !LangChain number W}.
Implicit Types (w : W) (doc chunk : Document number).
Implicit Types (es : list (list number)) (batch : list (Vector number)).

(** The upsert loop whatever the index answers: what it sends is an
    initial part of the slices, all of them when it ends well, and when it
    fails the rejection is that of the last batch sent. *)
Lemma upsert_loop_prefix indexName txtPath chunks_length es :
  forall rest idx batch w,
    idx + length rest = chunks_length ->
    (rest = [] -> batch = []) ->
    length batch < batchSize ->
    exists bs,
      trace (upsert_loop indexName txtPath chunks_length es idx rest batch w)
      = Upsert indexName <$> bs
      /\ bs `prefix_of`
           slices batchSize
             (batch ++ imap (fun i => make_vector txtPath es (idx + i)) rest)
      /\ (outcome
            (upsert_loop indexName txtPath chunks_length es idx rest batch w)
          = Ok tt ->
          bs = slices batchSize
                 (batch
                    ++ imap (fun i => make_vector txtPath es (idx + i)) rest))
      /\ (forall e,
            outcome
              (upsert_loop indexName txtPath chunks_length es idx rest batch w)
            = Err e ->
            exists vs w',
              last bs = Some vs /\ (pinecone_upsert indexName vs w').1 = Err e).
Proof.
  unfold outcome, trace.
  induction rest as [|chunk rest IH]; intros idx batch w Hidx Hbatch Hlen.
  - rewrite (Hbatch eq_refl). simpl. simp slices. by exists [].
  - cbn [upsert_loop imap]. rewrite Nat.add_0_r.
    set (batch' := batch ++ [make_vector txtPath es idx chunk]).
    assert (length batch' = S (length batch)) as Hlen'
      by (unfold batch'; rewrite length_app; simpl; lia).
    replace (batch ++ make_vector txtPath es idx chunk
               :: imap ((fun i => make_vector txtPath es (idx + i)) ∘ S) rest)
      with (batch' ++ imap (fun i => make_vector txtPath es (S idx + i)) rest).
    2:{ unfold batch'. rewrite <- (assoc_L (++)). simpl. do 2 f_equal.
        apply imap_ext. intros i x _. simpl. f_equal. lia. }
    simpl in Hidx.
    destruct (bool_decide (length batch' = batchSize)
              || bool_decide (Z.of_nat idx = (Z.of_nat chunks_length - 1)%Z))
      eqn:Hflush.
    + assert (slices batchSize
                (batch' ++ imap (fun i => make_vector txtPath es (S idx + i))
                             rest)
              = batch'
                :: slices batchSize
                     (imap (fun i => make_vector txtPath es (S idx + i)) rest))
        as Hslices.
      { apply orb_true_iff in Hflush as [Hfull|Hend].
        - apply bool_decide_eq_true in Hfull.
          rewrite (slices_app_full _ batch'); [done|unfold batchSize; lia|done].
        - apply bool_decide_eq_true in Hend.
          assert (rest = []) as -> by (apply length_zero_iff_nil; lia).
          simpl. rewrite app_nil_r, slices_short; [by simp slices| |lia].
          unfold batch'. by destruct batch. }
      rewrite Hslices.
      destruct (pinecone_upsert indexName batch' w).1 as [[]|e] eqn:Hup.
      * rewrite (run_call_bind_ok _ _ _ _ tt) by done. simpl.
        destruct (IH (S idx) [] (pinecone_upsert indexName batch' w).2)
          as (bs & Htr & Hpre & Hok & Herr);
          [lia|done|unfold batchSize; simpl; lia|].
        simpl in Hpre, Hok.
        exists (batch' :: bs). rewrite Htr. split_and!.
        -- done.
        -- by apply prefix_cons.
        -- intros Hout. by rewrite (Hok Hout).
        -- intros e Hout. destruct (Herr e Hout) as (vs & w' & Hlast & Hrej).
           exists vs, w'. split; [|done]. rewrite last_cons. by rewrite Hlast.
      * rewrite (run_call_bind_err _ _ _ _ e) by done. simpl.
        exists [batch']. split_and!.
        -- done.
        -- apply prefix_cons, prefix_nil.
        -- done.
        -- intros e' [= <-]. by exists batch', w.
    + apply orb_false_iff in Hflush as [Hfull Hend].
      apply bool_decide_eq_false in Hfull, Hend.
      apply IH; [lia| |lia].
      intros ->. simpl in Hidx. lia.
Qed.


Lemma updatePinecone_doc_embedded indexName doc w es :
  (OpenAIEmbeddings_embedDocuments (doc_texts doc) w).1 = Ok es ->
  exists bs,
    upserts (trace (updatePinecone_doc indexName doc w)) = bs
    /\ embedded_documents (trace (updatePinecone_doc indexName doc w))
       = [doc_texts doc]
    /\ bs `prefix_of` slices batchSize (doc_records doc es)
    /\ (outcome (updatePinecone_doc indexName doc w) = Ok tt ->
        bs = slices batchSize (doc_records doc es))
    /\ (forall e,
          outcome (updatePinecone_doc indexName doc w) = Err e ->
          exists vs w',
            last bs = Some vs /\ (pinecone_upsert indexName vs w').1 = Err e).
Proof.
  intros Hembed. unfold updatePinecone_doc.
  fold (doc_chunks doc). fold (doc_texts doc).
  unfold outcome, trace. rewrite !run_emit_bind. simpl.
  rewrite (run_call_bind_ok _ _ _ _ es) by done. simpl.
  rewrite run_emit_bind. simpl.
  destruct (upsert_loop_prefix indexName (get (metadata doc) "source")
              (length (doc_chunks doc)) es (doc_chunks doc) 0 []
              (OpenAIEmbeddings_embedDocuments (doc_texts doc) w).2)
    as (bs & Htr & Hpre & Hok & Herr); [done|done|unfold batchSize; simpl; lia|].
  unfold outcome, trace in Htr, Hok, Herr. simpl in Hpre, Hok.
  rewrite Htr, embedded_documents_Upsert, upserts_Upsert.
  exists bs. split_and!; done.
Qed.

(** X3.  Once the chunks of a document are embedded, and whatever the
    index answers to the upserts: the batches sent are an initial part of
    the batches of a complete run (the records cut into runs of a hundred),
    so no batch is sent out of order, shortened or twice; they are all of
    them when the run ends well; and when the run fails, it fails with the
    rejection of the last batch sent, after which nothing more is sent. *)
Theorem upserts_stop_at_first_rejection indexName doc w es :
  (OpenAIEmbeddings_embedDocuments (doc_texts doc) w).1 = Ok es ->
  upserts (trace (updatePinecone_doc indexName doc w))
    `prefix_of` slices batchSize (doc_records doc es)
  /\ (outcome (updatePinecone_doc indexName doc w) = Ok tt ->
      upserts (trace (updatePinecone_doc indexName doc w))
      = slices batchSize (doc_records doc es))
  /\ (forall e,
        outcome (updatePinecone_doc indexName doc w) = Err e ->
        exists vs w',
          last (upserts (trace (updatePinecone_doc indexName doc w))) = Some vs
          /\ (pinecone_upsert indexName vs w').1 = Err e).
Proof.
  intros Hembed.
  destruct (updatePinecone_doc_embedded indexName doc w es Hembed)
    as (bs & -> & _ & Hpre & Hok & Herr).
  done.
Qed.

(** A sequence depends on its second part only through what it does. *)
Lemma bind_ext {A B} (m : M (Event number) W A)
    (f g : A -> M (Event number) W B) w :
  (forall a w', f a w' = g a w') -> (m ≫= f) w = (m ≫= g) w.
Proof.
  intros Hfg. unfold mbind, M_bind.
  destruct (m w) as [[[a|e] w1] t1]; [|done]. by rewrite Hfg.
Qed.






(** X5.  A document that splits into no chunk: the embedding service is
    still called, with an empty list of texts, and when it answers nothing
    is upserted and the run ends well. *)
Theorem document_without_chunks indexName doc w es :
  doc_chunks doc = [] ->
  (OpenAIEmbeddings_embedDocuments [] w).1 = Ok es ->
  outcome (updatePinecone_doc indexName doc w) = Ok tt
  /\ embedded_documents (trace (updatePinecone_doc indexName doc w)) = [[]]
  /\ upserts (trace (updatePinecone_doc indexName doc w)) = [].
Proof.
  intros Hchunks Hembed. unfold updatePinecone_doc.
  fold (doc_chunks doc). rewrite Hchunks.
  cbn [fmap list_fmap length upsert_loop].
  unfold outcome, trace. rewrite !run_emit_bind. simpl.
  rewrite (run_call_bind_ok _ _ _ _ es) by done. simpl.
  by rewrite ?run_emit_bind.
Qed.

End ingestion_failures.

(** ** Ingestion: ids and metadata *)

Lemma has_underscore_app a b :
  has_underscore (a +:+ String "_" b) = true.
Proof.
  induction a as [|c a IH]; [done|].
  change (String c a +:+ ?s) with (String c (a +:+ s)).
  simpl. rewrite IH. apply orb_true_r.
Qed.

(** Decimal numerals hold no underscore. *)
Lemma pretty_N_go_no_underscore x s :
  has_underscore s = false -> has_underscore (pretty_N_go x s) = false.
Proof.
  revert s. induction (N.lt_wf_0 x) as [x _ IH]; intros s Hs.
  assert (x = 0 \/ 0 < x)%N as [->|Hx] by lia; [done|].
  rewrite pretty_N_go_step by done. apply IH; [by apply N.div_lt|].
  simpl. rewrite Hs. unfold pretty_N_char. by repeat case_match.
Qed.

Lemma pretty_nat_no_underscore (n : nat) : has_underscore (pretty n) = false.
Proof.
  unfold pretty, pretty_nat, pretty, pretty_N.
  case_decide; [done|]. by apply pretty_N_go_no_underscore.
Qed.

(** The last underscore of an id separates the path from the index. *)
Lemma id_split (p1 p2 d1 d2 : string) :
  has_underscore d1 = false ->
  has_underscore d2 = false ->
  p1 +:+ "_" +:+ d1 = p2 +:+ "_" +:+ d2 ->
  p1 = p2 /\ d1 = d2.
Proof.
  intros Hd1 Hd2. revert p2.
  induction p1 as [|c1 p1 IH]; intros [|c2 p2];
    repeat first
      [ progress change (String ?c ?a +:+ ?b) with (String c (a +:+ b))
      | progress change ("" +:+ ?b) with b ].
  - by intros [= ->].
  - intros [= _ Heq]. by rewrite Heq, has_underscore_app in Hd1.
  - intros [= _ Heq]. by rewrite <- Heq, has_underscore_app in Hd2.
  - intros [= -> Heq]. by destruct (IH _ Heq) as [-> ->].
Qed.

Section ingestion_records.
Context {number W : Type}.
Context `{!JSRuntime number, !PineconeClient number W, !LangChain number W}.
Implicit Types (w : W) (doc chunk : Document number).
Implicit Types (es : list (list number)) (txtPath : JSValue number).

(** X6.  Two records have the same id only if they were built for the same
    path (as it prints) and the same chunk index: the id
    [`${txtPath}_${idx}`] determines both, whatever underscores the path
    holds. *)
Theorem record_id_determines_path_and_index txtPath1 txtPath2 es1 es2
    idx1 idx2 chunk1 chunk2 :
  vector_id (make_vector txtPath1 es1 idx1 chunk1)
  = vector_id (make_vector txtPath2 es2 idx2 chunk2) ->
  ToString txtPath1 = ToString txtPath2 /\ idx1 = idx2.
Proof.
  unfold make_vector. simpl. intros Heq.
  apply id_split in Heq as [Hp Hd]; [|apply pretty_nat_no_underscore..].
  split; [done|]. by apply (inj pretty).
Qed.

(** The metadata of a record: the three keys that are set, and the keys of
    the chunk that pass through. *)
Lemma make_vector_metadata txtPath es idx chunk :
  vector_metadata (make_vector txtPath es idx chunk) !! "txtPath"
  = Some txtPath
  /\ vector_metadata (make_vector txtPath es idx chunk) !! "loc"
     = Some (JSON_stringify (get (metadata chunk) "loc"))
  /\ (metadata chunk !! "loc" = None ->
      vector_metadata (make_vector txtPath es idx chunk) !! "loc"
      = Some JUndefined)
  /\ forall key,
       key ≠ "txtPath" -> key ≠ "pageContent" -> key ≠ "loc" ->
       vector_metadata (make_vector txtPath es idx chunk) !! key
       = metadata chunk !! key.
Proof.
  unfold make_vector. simpl. split_and!.
  - by rewrite lookup_insert_eq.
  - by rewrite !lookup_insert_ne, lookup_insert_eq by done.
  - intros Hloc. rewrite !lookup_insert_ne, lookup_insert_eq by done.
    unfold get. by rewrite Hloc.
  - intros key H1 H2 H3. by rewrite !lookup_insert_ne by done.
Qed.

(** X7.  In a run for a document that ends well, the record upserted for
    the [i]-th chunk carries the document's source under [txtPath], the
    JSON text of the chunk's [loc] under [loc] (undefined when the chunk has
    none), and every other key of the chunk's metadata unchanged, except
    that a key [pageContent], [loc] or [txtPath] of the chunk is
    overwritten. *)
Theorem record_metadata indexName doc w es i chunk :
  (OpenAIEmbeddings_embedDocuments (doc_texts doc) w).1 = Ok es ->
  outcome (updatePinecone_doc indexName doc w) = Ok tt ->
  doc_chunks doc !! i = Some chunk ->
  exists v,
    concat (upserts (trace (updatePinecone_doc indexName doc w))) !! i = Some v
    /\ vector_metadata v !! "txtPath" = Some (get (metadata doc) "source")
    /\ vector_metadata v !! "loc"
       = Some (JSON_stringify (get (metadata chunk) "loc"))
    /\ (metadata chunk !! "loc" = None ->
        vector_metadata v !! "loc" = Some JUndefined)
    /\ forall key,
         key ≠ "txtPath" -> key ≠ "pageContent" -> key ≠ "loc" ->
         vector_metadata v !! key = metadata chunk !! key.
Proof.
  intros Hembed Hout Hi.
  destruct (updatePinecone_doc_embedded indexName doc w es Hembed)
    as (bs & -> & _ & _ & Hok & _).
  rewrite (Hok Hout), concat_slices by (unfold batchSize; lia).
  exists (make_vector (get (metadata doc) "source") es i chunk).
  split; [unfold doc_records; by rewrite list_lookup_imap, Hi|].
  apply make_vector_metadata.
Qed.

Lemma record_key_doc_records doc es1 es2 :
  record_key <$> doc_records doc es1 = record_key <$> doc_records doc es2.
Proof.
  unfold doc_records. rewrite !fmap_imap. by apply imap_ext.
Qed.

Lemma record_keys_of_runs indexName docs ts es0 :
  (forall vs w, (pinecone_upsert indexName vs w).1 = Ok tt) ->
  Forall2 (doc_run indexName) docs ts ->
  record_key <$> concat (concat (upserts <$> ts))
  = docs ≫= fun doc => record_key <$> doc_records doc es0.
Proof.
  intros Hupsert. induction 1 as [|doc t docs ts Hrun _ IH]; [done|].
  destruct Hrun as (w' & es & Hes & ->).
  destruct (updatePinecone_doc_run indexName doc w' es Hupsert Hes)
    as (_ & _ & Hups).
  rewrite fmap_cons, concat_cons, concat_app, fmap_app, bind_cons.
  rewrite Hups, concat_slices by (unfold batchSize; lia).
  f_equal; [apply record_key_doc_records|exact IH].
Qed.

(** X8.  Ingesting the same documents again, from whatever state of the
    world and whatever the embedding service answers this time, upserts
    records with the same ids and the same metadata in the same order: only
    the values can differ, so the second ingestion overwrites the records
    of the first. *)
Theorem reingestion_targets_the_same_records indexName docs w1 w2 :
  (forall vs w, (pinecone_upsert indexName vs w).1 = Ok tt) ->
  (forall texts w, exists es,
      (OpenAIEmbeddings_embedDocuments texts w).1 = Ok es) ->
  record_key <$> concat (upserts (trace (updatePinecone indexName docs w1)))
  = record_key <$> concat (upserts (trace (updatePinecone indexName docs w2))).
Proof.
  intros Hupsert Hembed.
  destruct (updatePinecone_run indexName docs w1 Hupsert Hembed)
    as (_ & ts1 & -> & Hall1).
  destruct (updatePinecone_run indexName docs w2 Hupsert Hembed)
    as (_ & ts2 & -> & Hall2).
  change (upserts (?e :: ?t)) with (upserts t).
  rewrite !upserts_concat.
  rewrite (record_keys_of_runs indexName docs ts1 [] Hupsert Hall1).
  by rewrite (record_keys_of_runs indexName docs ts2 [] Hupsert Hall2).
Qed.

End ingestion_records.

(** ** Query and entry point: failures and missing texts *)

Section query_failures.
Context {number W : Type}.
Context `{!JSRuntime number, !PineconeClient number W, !LangChain number W}.
Implicit Types (w : W) (ms : list (Match number)).

(** [join] puts the separator between what the elements contribute. *)
Lemma join_pieces sep (l : list (JSValue number)) :
  join sep l = String.concat sep (join_element ToString <$> l).
Proof.
  induction l as [|x l IH]; [done|].
  destruct l as [|y l]; [done|].
  cbn [fmap list_fmap join String.concat] in *. by rewrite IH.
Qed.

Lemma stored_text_join_element (m : Match number) :
  join_element ToString (match_pageContent m) = stored_text m.
Proof.
  unfold match_pageContent, stored_text, get.
  destruct (match_metadata m) as [md|]; [|done].
  destruct (md !! "pageContent") as [[]|]; done.
Qed.

(** X9.  A rejected call ends the query pipeline with the same rejection
    and nothing further is called: when the question cannot be embedded the
    index is not queried and no completion is asked for; when the query of
    the index is rejected no completion is asked for. *)
Theorem query_rejections indexName question w :
  (forall e,
      (OpenAIEmbeddings_embedQuery question w).1 = Err e ->
      outcome (queryPineconeVectorStoreAndQueryLLM indexName question w)
      = Err e
      /\ queries
           (trace (queryPineconeVectorStoreAndQueryLLM indexName question w))
         = []
      /\ chain_calls
           (trace (queryPineconeVectorStoreAndQueryLLM indexName question w))
         = [])
  /\ (forall qe e,
        (OpenAIEmbeddings_embedQuery question w).1 = Ok qe ->
        (pinecone_query indexName (mkQueryRequest 10 qe true true)
           (OpenAIEmbeddings_embedQuery question w).2).1 = Err e ->
        outcome (queryPineconeVectorStoreAndQueryLLM indexName question w)
        = Err e
        /\ queries
             (trace (queryPineconeVectorStoreAndQueryLLM indexName question w))
           = [(indexName, mkQueryRequest 10 qe true true)]
        /\ chain_calls
             (trace (queryPineconeVectorStoreAndQueryLLM indexName question w))
           = []).
Proof.
  split.
  - intros e Hqe. unfold queryPineconeVectorStoreAndQueryLLM.
    unfold outcome, trace. rewrite run_emit_bind. simpl.
    by rewrite (run_call_bind_err _ _ _ _ e) by done.
  - intros qe e Hqe Hresp. unfold queryPineconeVectorStoreAndQueryLLM.
    unfold outcome, trace. rewrite run_emit_bind. simpl.
    rewrite (run_call_bind_ok _ _ _ _ qe) by done. simpl.
    by rewrite (run_call_bind_err _ _ _ _ e) by done.
Qed.

(** X10.  The index is queried once, with the embedding of the question
    as it was asked (without the suffix that the completion gets), for the
    ten nearest records with their metadata and values; and the context of
    the completion call is what the matches store as text, a match without
    metadata or without a [pageContent] adding the empty text, with a
    single space between any two neighbours. *)
Theorem query_context_of_matches indexName question w qe resp ms :
  (OpenAIEmbeddings_embedQuery question w).1 = Ok qe ->
  (pinecone_query indexName (mkQueryRequest 10 qe true true)
     (OpenAIEmbeddings_embedQuery question w).2).1 = Ok resp ->
  matches resp = Some ms ->
  ms ≠ [] ->
  embedded_queries
    (trace (queryPineconeVectorStoreAndQueryLLM indexName question w))
  = [question]
  /\ queries (trace (queryPineconeVectorStoreAndQueryLLM indexName question w))
     = [(indexName, mkQueryRequest 10 qe true true)]
  /\ (fun c : list (Document number) * string => pageContent <$> c.1)
     <$> chain_calls
           (trace (queryPineconeVectorStoreAndQueryLLM indexName question w))
     = [[String.concat " " (stored_text (number:=number) <$> ms)]]
  /\ forall m : Match number, match_metadata m = None -> stored_text m = "".
Proof.
  intros Hqe Hresp Hms Hne. destruct ms as [|m ms]; [done|].
  split_and!; [| | |by intros m' Hm; unfold stored_text; rewrite Hm].
  - unfold queryPineconeVectorStoreAndQueryLLM, trace.
    rewrite run_emit_bind. simpl.
    rewrite (run_call_bind_ok _ _ _ _ qe) by done. simpl.
    rewrite (run_call_bind_ok _ _ _ _ resp) by done. simpl.
    rewrite !run_emit_bind. simpl. rewrite Hms.
    match goal with
    | |- context [(call _ (loadQAStuffChain_call ?d ?q) ≫= _) ?w'] =>
        destruct (loadQAStuffChain_call d q w').1 as [result|e] eqn:Hchain
    end.
    + rewrite (run_call_bind_ok _ _ _ _ result) by done. simpl.
      by rewrite ?run_emit_bind.
    + by rewrite (run_call_bind_err _ _ _ _ e) by done.
  - unfold queryPineconeVectorStoreAndQueryLLM, trace.
    rewrite run_emit_bind. simpl.
    rewrite (run_call_bind_ok _ _ _ _ qe) by done. simpl.
    rewrite (run_call_bind_ok _ _ _ _ resp) by done. simpl.
    rewrite !run_emit_bind. simpl. rewrite Hms.
    match goal with
    | |- context [(call _ (loadQAStuffChain_call ?d ?q) ≫= _) ?w'] =>
        destruct (loadQAStuffChain_call d q w').1 as [result|e] eqn:Hchain
    end.
    + rewrite (run_call_bind_ok _ _ _ _ result) by done. simpl.
      by rewrite ?run_emit_bind.
    + by rewrite (run_call_bind_err _ _ _ _ e) by done.
  - destruct (query_run_matches indexName question w qe resp m ms
                Hqe Hresp Hms) as [-> _].
    cbn [fmap list_fmap fst pageContent].
    change (match_pageContent m :: (match_pageContent <$> ms))
      with (match_pageContent <$> m :: ms).
    change (stored_text m :: (stored_text <$> ms))
      with (stored_text <$> m :: ms).
    rewrite join_pieces, <- list_fmap_compose. do 3 f_equal.
    apply list_fmap_ext. intros i m' _. apply stored_text_join_element.
Qed.

End query_failures.

Section entry_point_failures.
Context {number W : Type}.
Context `{!JSRuntime number, !PineconeClient number W, !LangChain number W}.
Variable indexName : string.
Variables PINECONE_API_KEY PINECONE_ENVIRONMENT : option string.
Implicit Types (w : W).

(** X11.  The handler gives no response when a call is rejected: when the
    client cannot be initialised the pipeline is not run at all (nothing is
    embedded, queried or asked), and when the pipeline fails the handler
    fails with the same error.  Every response it does give has the status
    200. *)
Theorem POST_rejections question w :
  let response :=
    POST indexName PINECONE_API_KEY PINECONE_ENVIRONMENT question w in
  (forall e,
      (pinecone_init PINECONE_API_KEY PINECONE_ENVIRONMENT w).1 = Err e ->
      outcome response = Err e
      /\ trace response = [PineconeInit PINECONE_API_KEY PINECONE_ENVIRONMENT])
  /\ (forall e,
        (pinecone_init PINECONE_API_KEY PINECONE_ENVIRONMENT w).1 = Ok tt ->
        outcome (queryPineconeVectorStoreAndQueryLLM indexName question
                   (pinecone_init PINECONE_API_KEY PINECONE_ENVIRONMENT w).2)
        = Err e ->
        outcome response = Err e)
  /\ (forall r, outcome response = Ok r -> status r = 200).
Proof.
  intros response. subst response. split_and!.
  - intros e Hinit. unfold POST, outcome, trace.
    by rewrite (run_call_bind_err _ _ _ _ e) by done.
  - intros e Hinit Hpipe. unfold POST, outcome.
    rewrite (run_call_bind_ok _ _ _ _ tt) by done. simpl.
    destruct (bind_err (queryPineconeVectorStoreAndQueryLLM indexName question)
                (fun text => mret (NextResponse_json (JObject [("data", text)])))
                _ e Hpipe) as (Hout & _ & _).
    exact Hout.
  - intros r. unfold POST, outcome.
    destruct (pinecone_init PINECONE_API_KEY PINECONE_ENVIRONMENT w).1
      as [[]|e] eqn:Hinit.
    2:{ by rewrite (run_call_bind_err _ _ _ _ e) by done. }
    rewrite (run_call_bind_ok _ _ _ _ tt) by done. simpl.
    unfold mbind, M_bind.
    destruct (queryPineconeVectorStoreAndQueryLLM _ _ _) as [[[v|e] w1] t1];
      simpl; [|done].
    by intros [= <-].
Qed.

End entry_point_failures.

(** ** The embedding clients: answers of any shape, failures *)

Section run_inversion.
Context {E W : Type}.

(** A sequence that ends well: both parts did. *)
Lemma bind_ok_inv {A B} (m : M E W A) (f : A -> M E W B) w b :
  outcome ((m ≫= f) w) = Ok b ->
  exists a, outcome (m w) = Ok a /\ outcome (f a (world (m w))) = Ok b.
Proof.
  unfold outcome, world, mbind, M_bind.
  destruct (m w) as [[[a|e] w1] t1]; simpl; [|done].
  destruct (f a w1) as [[r w2] t2] eqn:Hf; simpl. intros ->.
  exists a. by rewrite Hf.
Qed.

Lemma Promise_all_ok_length {A} (started : list (M E W A)) w values :
  outcome (Promise_all started w) = Ok values ->
  length values = length started.
Proof.
  unfold outcome. revert w values.
  induction started as [|p started IH]; intros w values.
  - by intros [= <-].
  - cbn [Promise_all]. destruct (p w) as [[r w1] t1].
    specialize (IH w1).
    destruct (Promise_all started w1) as [[rs w2] t2]. simpl in *.
    destruct r as [a|e], rs as [l|e']; try done.
    intros [= <-]. simpl. by rewrite (IH l).
Qed.

(** One rejected call is enough for [Promise.all] to reject. *)
Lemma Promise_all_rejected {A} (started : list (M E W A)) p w :
  p ∈ started ->
  (forall w', exists e, outcome (p w') = Err e) ->
  exists e, outcome (Promise_all started w) = Err e.
Proof.
  unfold outcome. intros Hin Hp. revert w.
  induction started as [|q started IH]; intros w; [by apply elem_of_nil in Hin|].
  cbn [Promise_all]. apply elem_of_cons in Hin as [<-|Hin].
  - destruct (Hp w) as [e He]. destruct (p w) as [[r w1] t1].
    destruct (Promise_all started w1) as [[rs w2] t2]. simpl in *.
    subst r. by exists e.
  - destruct (q w) as [[r w1] t1]. destruct (IH Hin w1) as [e He].
    destruct (Promise_all started w1) as [[rs w2] t2]. simpl in *.
    subst rs. destruct r as [a|e']; by eexists.
Qed.

End run_inversion.

Section embedding_clients_any_service.
Context {number W : Type} `{!Axios number W}.
Variable LLAMA_SERVICE_ORIGIN : option string.
Implicit Types (w : W) (texts batch documents : list string).
Implicit Types (batches : list (list string)).
Implicit Types (this : LlamaBatched.LlamaEmbeddings).
Implicit Types (vectors acc : list (list number)).

Local Abbreviation url := (embeddings_url LLAMA_SERVICE_ORIGIN).

Lemma push_batch_ok_length (response : EmbeddingResponse number) j rest acc
    w vectors :
  outcome (LlamaBatched.push_batch response j rest acc w) = Ok vectors ->
  length vectors = length acc + length rest.
Proof.
  unfold outcome. revert j acc.
  induction rest as [|t rest IH]; intros j acc.
  - simpl. intros [= <-]. lia.
  - cbn [LlamaBatched.push_batch]. destruct (data response !! j); [|done].
    intros Hout. rewrite (IH _ _ Hout), length_app. simpl. lia.
Qed.

Lemma push_batches_ok_length batches
    (responses : list (EmbeddingResponse number)) acc w vectors :
  length responses = length batches ->
  outcome (LlamaBatched.push_batches batches responses acc w) = Ok vectors ->
  length vectors = length acc + length (concat batches).
Proof.
  revert batches acc w.
  induction responses as [|response responses IH]; intros batches acc w Hlen.
  - destruct batches; [|done]. unfold outcome. simpl. intros [= <-]. lia.
  - destruct batches as [|batch batches]; [done|].
    cbn [LlamaBatched.push_batches]. intros Hout.
    apply bind_ok_inv in Hout as (acc' & Hacc & Hout).
    apply push_batch_ok_length in Hacc.
    apply IH in Hout; [|simpl in Hlen; lia].
    rewrite Hout, Hacc. simpl. rewrite length_app. lia.
Qed.

Lemma posted_inputs_of_batches batches :
  posted_inputs
    ((fun batch => AxiosPost (number:=number) url (InputArray batch))
     <$> batches)
  = InputArray <$> batches.
Proof. induction batches as [|b bs IH]; [done|]. simpl. by f_equal. Qed.

(** X12.  Whatever the embedding service answers, a batching
    [embedDocuments] that returns has returned exactly one vector for every
    text that [chunkArray] put in a batch, hence one per input text for a
    batch size of at least one: answers that are too short or too long
    never make the result shorter or longer than the input. *)
Theorem embedDocuments_returns_one_vector_per_text this texts w vectors :
  outcome (LlamaBatched.embedDocuments LLAMA_SERVICE_ORIGIN this texts w)
  = Ok vectors ->
  length vectors
  = length (concat (chunkArray (prepared this texts)
                      (LlamaBatched.batchSize this)))
  /\ (0 < LlamaBatched.batchSize this -> length vectors = length texts).
Proof.
  unfold LlamaBatched.embedDocuments. fold (prepared this texts).
  set (batches := chunkArray (prepared this texts) (LlamaBatched.batchSize this)).
  intros Hout. apply bind_ok_inv in Hout as (responses & Hall & Hout).
  apply Promise_all_ok_length in Hall. rewrite length_fmap in Hall.
  apply push_batches_ok_length in Hout; [|done]. simpl in Hout.
  split; [done|]. intros Hsize. rewrite Hout. unfold batches, chunkArray.
  rewrite concat_slices by done. unfold prepared.
  destruct (LlamaBatched.stripNewLines this); by rewrite ?length_fmap.
Qed.

(** X13.  When the request for one of the batches is rejected whenever it
    is made, the batching [embedDocuments] fails, and yet the requests for
    all the batches have been sent. *)
Theorem embedDocuments_fails_when_a_batch_is_rejected this texts batch w :
  batch ∈ chunkArray (prepared this texts) (LlamaBatched.batchSize this) ->
  (forall w', exists e, (axios_post url (InputArray batch) w').1 = Err e) ->
  (exists e,
      outcome (LlamaBatched.embedDocuments LLAMA_SERVICE_ORIGIN this texts w)
      = Err e)
  /\ posted_inputs
       (trace (LlamaBatched.embedDocuments LLAMA_SERVICE_ORIGIN this texts w))
     = InputArray
       <$> chunkArray (prepared this texts) (LlamaBatched.batchSize this).
Proof.
  intros Hin Hrej. split.
  - unfold LlamaBatched.embedDocuments. fold (prepared this texts).
    set (batches := chunkArray (prepared this texts)
                      (LlamaBatched.batchSize this)) in *.
    destruct (Promise_all_rejected (batch_requests LLAMA_SERVICE_ORIGIN batches)
                (LlamaBatched.embeddingWithRetry LLAMA_SERVICE_ORIGIN
                   (InputArray batch)) w) as [e He].
    + unfold batch_requests.
      by apply (list_elem_of_fmap_2 (fun batch => LlamaBatched.embeddingWithRetry
                                  LLAMA_SERVICE_ORIGIN (InputArray batch))).
    + intros w'. destruct (Hrej w') as [e He]. exists e.
      unfold LlamaBatched.embeddingWithRetry, outcome. by rewrite run_call.
    + exists e.
      destruct (bind_err (Promise_all
                            (batch_requests LLAMA_SERVICE_ORIGIN batches))
                  (fun batchResponses =>
                     LlamaBatched.push_batches batches batchResponses [])
                  w e He) as (Hout & _ & _).
      exact Hout.
  - rewrite embedDocuments_trace. apply posted_inputs_of_batches.
Qed.

(** X14.  [embedQuery] of either client: a rejected request is the
    client's failure, an answer that holds no embedding is a TypeError, and
    otherwise the first embedding of the answer is returned, whatever else
    the answer holds.  The batching client sends the text as
    [stripNewLines] says, the sequential client as it is. *)
Theorem embedQuery_reads_the_first_embedding this text w :
  let sent :=
    if LlamaBatched.stripNewLines this then replace_newlines text else text in
  let batched := LlamaBatched.embedQuery LLAMA_SERVICE_ORIGIN this text w in
  let sequential := LlamaSequential.embedQuery LLAMA_SERVICE_ORIGIN text w in
  (forall e,
      (axios_post url (InputString sent) w).1 = Err e ->
      outcome batched = Err e)
  /\ (forall response,
        (axios_post url (InputString sent) w).1 = Ok response ->
        outcome batched
        = match data response with
          | d :: _ => Ok (embedding d)
          | [] =>
              Err (TypeError
                     "Cannot read properties of undefined (reading 'embedding')")
          end)
  /\ (forall e,
        (axios_post url (InputString text) w).1 = Err e ->
        outcome sequential = Err e)
  /\ (forall response,
        (axios_post url (InputString text) w).1 = Ok response ->
        outcome sequential
        = match data response with
          | d :: _ => Ok (embedding d)
          | [] =>
              Err (TypeError
                     "Cannot read properties of undefined (reading 'embedding')")
          end)
  /\ trace sequential = [AxiosPost url (InputString text)].
Proof.
  intros sent batched sequential. subst batched sequential.
  unfold LlamaBatched.embedQuery, LlamaBatched.embeddingWithRetry.
  unfold LlamaSequential.embedQuery, LlamaSequential.embedWithRetry.
  fold sent. unfold outcome, trace. split_and!.
  - intros e He. by rewrite (run_call_bind_err _ _ _ _ e) by done.
  - intros response Hr. rewrite (run_call_bind_ok _ _ _ _ response) by done.
    by destruct (data response).
  - intros e He. by rewrite (run_call_bind_err _ _ _ _ e) by done.
  - intros response Hr. rewrite (run_call_bind_ok _ _ _ _ response) by done.
    by destruct (data response).
  - unfold mbind, M_bind. rewrite run_call.
    destruct (axios_post _ _ _).1 as [response|e]; simpl; [|done].
    by destruct (data response !! 0).
Qed.

Lemma embedDocuments_loop_sent documents acc w :
  exists n,
    n ≤ length documents
    /\ trace (LlamaSequential.embedDocuments_loop LLAMA_SERVICE_ORIGIN
                documents acc w)
       = (fun document => AxiosPost url (InputString document))
         <$> take n documents
    /\ forall vectors,
         outcome (LlamaSequential.embedDocuments_loop LLAMA_SERVICE_ORIGIN
                    documents acc w)
         = Ok vectors ->
         n = length documents
         /\ length vectors = length acc + length documents.
Proof.
  unfold outcome, trace. revert acc w.
  induction documents as [|document documents IH]; intros acc w.
  - exists 0. simpl. split_and!; [done|done|]. intros vectors [= <-]. lia.
  - cbn [LlamaSequential.embedDocuments_loop].
    unfold LlamaSequential.embedWithRetry.
    destruct (axios_post url (InputString document) w).1 as [response|e]
      eqn:Hpost.
    + rewrite (run_call_bind_ok _ _ _ _ response) by done. simpl.
      destruct (data response !! 0) as [d|].
      * destruct (IH (acc ++ [embedding d])
                    (axios_post url (InputString document) w).2)
          as (n & Hn & -> & Hok).
        exists (S n). split_and!; [simpl; lia|done|].
        intros vectors Hout. destruct (Hok _ Hout) as [-> ->].
        rewrite length_app. simpl. lia.
      * exists 1. split_and!; [simpl; lia|done|done].
    + rewrite (run_call_bind_err _ _ _ _ e) by done. simpl.
      exists 1. split_and!; [simpl; lia|done|done].
Qed.

(** The loop over a list in two parts. *)
Lemma embedDocuments_loop_app before after acc w :
  LlamaSequential.embedDocuments_loop LLAMA_SERVICE_ORIGIN (before ++ after)
    acc w
  = (LlamaSequential.embedDocuments_loop LLAMA_SERVICE_ORIGIN before acc
     ≫= fun acc' =>
          LlamaSequential.embedDocuments_loop LLAMA_SERVICE_ORIGIN after acc')
      w.
Proof.
  revert acc w. induction before as [|document before IH]; intros acc w.
  - simpl. by rewrite bind_ret_l.
  - cbn [app LlamaSequential.embedDocuments_loop].
    rewrite bind_assoc. apply bind_ext. intros result w'.
    destruct (data result !! 0) as [d|]; [apply IH|done].
Qed.

(** The loop entered at a document whose request fails. *)
Lemma embedDocuments_loop_request_fails document after acc w e :
  request_fails LLAMA_SERVICE_ORIGIN document w e ->
  outcome (LlamaSequential.embedDocuments_loop LLAMA_SERVICE_ORIGIN
             (document :: after) acc w)
  = Err e
  /\ trace (LlamaSequential.embedDocuments_loop LLAMA_SERVICE_ORIGIN
              (document :: after) acc w)
     = [AxiosPost url (InputString document)].
Proof.
  unfold outcome, trace. cbn [LlamaSequential.embedDocuments_loop].
  unfold LlamaSequential.embedWithRetry.
  intros [Hrej|(response & Hok & Hdata & ->)].
  - by rewrite (run_call_bind_err _ _ _ _ e) by done.
  - rewrite (run_call_bind_ok _ _ _ _ response) by done. by rewrite Hdata.
Qed.

(** A loop that fails has a first document whose request fails. *)
Lemma embedDocuments_loop_failure documents acc w e :
  outcome (LlamaSequential.embedDocuments_loop LLAMA_SERVICE_ORIGIN
             documents acc w)
  = Err e ->
  exists before document after vectors,
    documents = before ++ document :: after
    /\ outcome (LlamaSequential.embedDocuments_loop LLAMA_SERVICE_ORIGIN
                  before acc w)
       = Ok vectors
    /\ request_fails LLAMA_SERVICE_ORIGIN document
         (world (LlamaSequential.embedDocuments_loop LLAMA_SERVICE_ORIGIN
                   before acc w))
         e.
Proof.
  revert acc w. induction documents as [|document documents IH]; intros acc w;
    [done|].
  unfold outcome. cbn [LlamaSequential.embedDocuments_loop].
  unfold LlamaSequential.embedWithRetry.
  destruct (axios_post url (InputString document) w).1 as [response|e']
    eqn:Hpost.
  - rewrite (run_call_bind_ok _ _ _ _ response) by done. simpl.
    destruct (data response !! 0) as [d|] eqn:Hd.
    + intros Hrest.
      destruct (IH _ _ Hrest)
        as (before & document' & after & vectors & -> & Hbefore & Hfail).
      exists (document :: before), document', after, vectors.
      split; [done|].
      unfold outcome, world in *.
      cbn [LlamaSequential.embedDocuments_loop].
      unfold LlamaSequential.embedWithRetry.
      rewrite (run_call_bind_ok _ _ _ _ response) by done. simpl.
      by rewrite Hd.
    + intros [= <-]. exists [], document, documents, acc.
      split_and!; [done|done|]. right. exists response.
      split_and!; [done| |done]. by destruct (data response).
  - rewrite (run_call_bind_err _ _ _ _ e') by done. simpl.
    intros [= <-]. exists [], document, documents, acc.
    split_and!; [done|done|]. by left.
Qed.

(** X15.  Whatever the embedding service answers, the sequential
    [embedDocuments] sends one request per document, in order, each
    carrying the text of that document as it is (newlines kept), and stops
    at the first request that fails.  When it returns, it has sent the
    requests for all the documents and returns one vector per document.
    When the documents before a document have been embedded and the request
    for that document fails (it is rejected, or its answer holds no
    embedding), [embedDocuments] fails with that error, and the requests it
    has sent are those for the documents up to and including that one: none
    is sent for the documents after it.  Conversely, whenever it fails
    there is such a first failing request. *)
Theorem sequential_embedDocuments_requests documents w :
  (forall vectors,
      outcome (LlamaSequential.embedDocuments LLAMA_SERVICE_ORIGIN documents w)
      = Ok vectors ->
      trace (LlamaSequential.embedDocuments LLAMA_SERVICE_ORIGIN documents w)
      = (fun document => AxiosPost url (InputString document)) <$> documents
      /\ length vectors = length documents)
  /\ (forall before document after vectors e,
        documents = before ++ document :: after ->
        outcome (LlamaSequential.embedDocuments LLAMA_SERVICE_ORIGIN before w)
        = Ok vectors ->
        request_fails LLAMA_SERVICE_ORIGIN document
          (world (LlamaSequential.embedDocuments LLAMA_SERVICE_ORIGIN
                    before w))
          e ->
        outcome (LlamaSequential.embedDocuments LLAMA_SERVICE_ORIGIN
                   documents w)
        = Err e
        /\ trace (LlamaSequential.embedDocuments LLAMA_SERVICE_ORIGIN
                    documents w)
           = (fun document => AxiosPost url (InputString document))
             <$> before ++ [document])
  /\ (forall e,
        outcome (LlamaSequential.embedDocuments LLAMA_SERVICE_ORIGIN
                   documents w)
        = Err e ->
        exists before document after vectors,
          documents = before ++ document :: after
          /\ outcome (LlamaSequential.embedDocuments LLAMA_SERVICE_ORIGIN
                        before w)
             = Ok vectors
          /\ request_fails LLAMA_SERVICE_ORIGIN document
               (world (LlamaSequential.embedDocuments LLAMA_SERVICE_ORIGIN
                         before w))
               e).
Proof.
  assert (forall l vectors,
             outcome (LlamaSequential.embedDocuments LLAMA_SERVICE_ORIGIN l w)
             = Ok vectors ->
             trace (LlamaSequential.embedDocuments LLAMA_SERVICE_ORIGIN l w)
             = (fun document => AxiosPost url (InputString document)) <$> l
             /\ length vectors = length l) as Hreturned.
  { intros l vectors Hout. unfold LlamaSequential.embedDocuments in *.
    destruct (embedDocuments_loop_sent l [] w) as (n & Hn & Htr & Hok).
    destruct (Hok _ Hout) as [-> Hlen]. rewrite Htr.
    by rewrite take_ge by done. }
  split_and!; [exact (Hreturned documents)| |].
  - intros before document after vectors e -> Hbefore Hfail.
    destruct (Hreturned before vectors Hbefore) as [Htr _].
    unfold LlamaSequential.embedDocuments in *.
    rewrite embedDocuments_loop_app.
    destruct (bind_ok
                (LlamaSequential.embedDocuments_loop LLAMA_SERVICE_ORIGIN
                   before [])
                (fun acc' =>
                   LlamaSequential.embedDocuments_loop LLAMA_SERVICE_ORIGIN
                     (document :: after) acc')
                w vectors Hbefore) as (-> & _ & ->).
    destruct (embedDocuments_loop_request_fails document after vectors _ e
                Hfail) as [-> ->].
    by rewrite Htr, fmap_app.
  - intros e Hfail. unfold LlamaSequential.embedDocuments in *.
    by apply embedDocuments_loop_failure.
Qed.

Lemma embedDocuments_loop_mapM documents acc w :
  LlamaSequential.embedDocuments_loop LLAMA_SERVICE_ORIGIN documents acc w
  = (mapM (LlamaSequential.embedQuery LLAMA_SERVICE_ORIGIN) documents
     ≫= fun vectors => mret (acc ++ vectors)) w.
Proof.
  revert acc w. induction documents as [|document documents IH]; intros acc w.
  - simpl. unfold mbind, M_bind, mret, M_ret. by rewrite app_nil_r.
  - cbn [LlamaSequential.embedDocuments_loop mapM].
    unfold LlamaSequential.embedQuery, LlamaSequential.embedWithRetry.
    unfold mbind, M_bind, call, mret, M_ret, throw.
    destruct (axios_post url (InputString document) w) as [[result|e] w1];
      [|done].
    destruct (data result !! 0) as [d|]; [|done].
    rewrite IH. unfold mbind, M_bind, mret, M_ret.
    destruct (mapM _ documents w1) as [[[vectors|e] w2] t2]; simpl; [|done].
    by rewrite <- (assoc_L (++)), !app_nil_r.
Qed.

(** X16.  The sequential [embedDocuments] is [embedQuery] run on each
    document in turn: same result, same requests, same state of the world
    afterwards, and the same failure when one of the calls fails. *)
Theorem sequential_embedDocuments_is_embedQuery_in_turn documents w :
  LlamaSequential.embedDocuments LLAMA_SERVICE_ORIGIN documents w
  = mapM (LlamaSequential.embedQuery LLAMA_SERVICE_ORIGIN) documents w.
Proof.
  unfold LlamaSequential.embedDocuments.
  rewrite embedDocuments_loop_mapM. apply bind_ret_r.
Qed.

End embedding_clients_any_service.

(** ** The further properties on the test worlds *)

Section test_worlds.
Local Existing Instances Flaky.pinecone Flaky.langchain Flaky.axios Picky.axios.

Lemma createPineconeIndex_rejections_witness :
  outcome (createPineconeIndex 60000%Z "idx" 1536%Z (Flaky.with_calls 0))
  = Err (Rejected "ECONNRESET")
  /\ outcome (createPineconeIndex 60000%Z "idx" 1536%Z (Flaky.with_calls 1))
     = Err (Rejected "ECONNRESET")
  /\ waits (trace (createPineconeIndex 60000%Z "idx" 1536%Z
                     (Flaky.with_calls 1)))
     = [].
Proof.
  destruct (createPineconeIndex_rejections 60000%Z "idx" 1536%Z
              (Flaky.with_calls 0)) as [Hlist _].
  destruct (createPineconeIndex_rejections 60000%Z "idx" 1536%Z
              (Flaky.with_calls 1)) as [_ Hcreate].
  destruct (Hlist (Rejected "ECONNRESET") eq_refl) as (Hout & _ & _).
  destruct (Hcreate [] (Rejected "ECONNRESET") eq_refl
              ltac:(by apply not_elem_of_nil) eq_refl) as (Hout' & _ & Hwait).
  split_and!; [exact Hout|exact Hout'|exact Hwait].
Defined.

Lemma upserts_stop_at_first_rejection_witness :
  outcome (updatePinecone_doc "idx" Reference.doc_a (Flaky.with_calls 1))
  = Err (Rejected "ECONNRESET")
  /\ exists vs w',
       last (upserts (trace (updatePinecone_doc "idx" Reference.doc_a
                               (Flaky.with_calls 1))))
       = Some vs
       /\ (pinecone_upsert "idx" vs w').1 = Err (Rejected "ECONNRESET").
Proof.
  edestruct (upserts_stop_at_first_rejection "idx" Reference.doc_a
               (Flaky.with_calls 1)) as (_ & _ & Herr).
  - reflexivity.
  - split; [reflexivity|]. apply Herr. reflexivity.
Defined.


Lemma document_without_chunks_witness :
  outcome (updatePinecone_doc "idx" (mkDocument "" ∅) Reference.empty) = Ok tt
  /\ embedded_documents
       (trace (updatePinecone_doc "idx" (mkDocument "" ∅) Reference.empty))
     = [[]]
  /\ upserts (trace (updatePinecone_doc "idx" (mkDocument "" ∅)
                       Reference.empty))
     = [].
Proof.
  eapply (document_without_chunks "idx" (mkDocument "" ∅) Reference.empty).
  - reflexivity.
  - reflexivity.
Defined.

Lemma record_id_determines_path_and_index_witness :
  ToString (JString "a_1" : JSValue Z) = ToString (JString "a_1" : JSValue Z)
  /\ 0 = 0.
Proof.
  apply (record_id_determines_path_and_index
           (JString "a_1") (JString "a_1") [] [[1%Z]] 0 0
           (mkDocument "x" ∅) (mkDocument "y" ∅)).
  reflexivity.
Defined.

Lemma record_metadata_witness :
  exists v,
    concat (upserts (trace (updatePinecone_doc "idx" Reference.doc_a
                              Reference.empty))) !! 0
    = Some v
    /\ vector_metadata v !! "txtPath" = Some (JString "a.txt")
    /\ vector_metadata v !! "loc" = Some JUndefined.
Proof.
  destruct (record_metadata "idx" Reference.doc_a Reference.empty
              [[97%Z; 98%Z; 99%Z]] 0 (mkDocument "abc" ∅))
    as (v & Hv & Hpath & _ & Hloc & _).
  - reflexivity.
  - reflexivity.
  - reflexivity.
  - exists v. split_and!; [exact Hv|exact Hpath|]. apply Hloc. reflexivity.
Defined.

Lemma reingestion_targets_the_same_records_witness :
  record_key
  <$> concat (upserts (trace (updatePinecone "idx" [Reference.doc_a]
                                Reference.empty)))
  = record_key
    <$> concat (upserts (trace (updatePinecone "idx" [Reference.doc_a]
                                  Reference.ingested))).
Proof.
  apply (reingestion_targets_the_same_records "idx" [Reference.doc_a]
           Reference.empty Reference.ingested).
  - intros vs w. reflexivity.
  - intros texts w. eexists. reflexivity.
Defined.

Lemma query_rejections_witness :
  outcome (queryPineconeVectorStoreAndQueryLLM "idx" "q" (Flaky.with_calls 1))
  = Err (Rejected "ECONNRESET")
  /\ chain_calls
       (trace (queryPineconeVectorStoreAndQueryLLM "idx" "q"
                 (Flaky.with_calls 1)))
     = [].
Proof.
  destruct (query_rejections "idx" "q" (Flaky.with_calls 1)) as [_ Hquery].
  destruct (Hquery (Reference.embed "q") (Rejected "ECONNRESET")
              eq_refl eq_refl) as (Hout & _ & Hcalls).
  split; [exact Hout|exact Hcalls].
Defined.

Lemma query_context_of_matches_witness :
  (fun c : list (Document Z) * string => pageContent <$> c.1)
  <$> chain_calls
        (trace (queryPineconeVectorStoreAndQueryLLM "idx" "q"
                  (Flaky.with_calls 3)))
  = [["abc"]].
Proof.
  edestruct (query_context_of_matches "idx" "q" (Flaky.with_calls 3))
    as (_ & _ & Hcontext & _).
  - reflexivity.
  - reflexivity.
  - reflexivity.
  - discriminate.
  - exact Hcontext.
Defined.

Lemma POST_rejections_witness :
  outcome (POST "idx" None None "q" (Flaky.with_calls 0))
  = Err (Rejected "ECONNRESET")
  /\ trace (POST "idx" None None "q" (Flaky.with_calls 0))
     = [PineconeInit None None].
Proof.
  destruct (POST_rejections "idx" None None "q" (Flaky.with_calls 0))
    as [Hinit _].
  apply Hinit. reflexivity.
Defined.

Lemma embedDocuments_returns_one_vector_per_text_witness :
  outcome (LlamaBatched.embedDocuments None Reference.pairs ["a"; "b"; "c"]
             Reference.empty)
  = Ok [[97%Z]; [98%Z]; [99%Z]]
  /\ length [[97%Z]; [98%Z]; [99%Z]] = length ["a"; "b"; "c"].
Proof.
  edestruct (embedDocuments_returns_one_vector_per_text None Reference.pairs
               ["a"; "b"; "c"] Reference.empty [[97%Z]; [98%Z]; [99%Z]])
    as [_ Hlen].
  - reflexivity.
  - split; [reflexivity|]. apply Hlen. simpl. lia.
Defined.

Lemma embedDocuments_fails_when_a_batch_is_rejected_witness :
  (exists e,
      outcome (LlamaBatched.embedDocuments None Reference.pairs ["a"; "b"; ""]
                 Picky.here)
      = Err e)
  /\ posted_inputs
       (trace (LlamaBatched.embedDocuments None Reference.pairs ["a"; "b"; ""]
                 Picky.here))
     = [InputArray ["a"; "b"]; InputArray [""]].
Proof.
  apply (embedDocuments_fails_when_a_batch_is_rejected None Reference.pairs
           ["a"; "b"; ""] [""] Picky.here).
  - vm_compute. apply list_elem_of_further, list_elem_of_here.
  - intros w'. eexists. reflexivity.
Defined.

Lemma sequential_embedDocuments_requests_witness :
  outcome (LlamaSequential.embedDocuments None ["a"; "b"; "c"]
             (Flaky.with_calls 1))
  = Err (Rejected "ECONNRESET")
  /\ trace (LlamaSequential.embedDocuments None ["a"; "b"; "c"]
              (Flaky.with_calls 1))
     = (fun document =>
          AxiosPost (number:=Z) (embeddings_url None) (InputString document))
       <$> ["a"] ++ ["b"].
Proof.
  destruct (sequential_embedDocuments_requests None ["a"; "b"; "c"]
              (Flaky.with_calls 1)) as (_ & Hstop & _).
  apply (Hstop ["a"] "b" ["c"] [[97%Z]] (Rejected "ECONNRESET")).
  - reflexivity.
  - reflexivity.
  - left. reflexivity.
Defined.

Lemma embedQuery_reads_the_first_embedding_witness :
  outcome (LlamaSequential.embedQuery None "" Picky.here)
  = Err (TypeError "Cannot read properties of undefined (reading 'embedding')")
  /\ outcome (LlamaSequential.embedQuery None "a" Picky.here) = Ok [97%Z].
Proof.
  destruct (embedQuery_reads_the_first_embedding None
              (LlamaBatched.constructor None) "" Picky.here)
    as (_ & _ & _ & Hempty & _).
  destruct (embedQuery_reads_the_first_embedding None
              (LlamaBatched.constructor None) "a" Picky.here)
    as (_ & _ & _ & Hfirst & _).
  split; [exact (Hempty _ eq_refl)|exact (Hfirst _ eq_refl)].
Defined.

End test_worlds.
